(** * BookManager (js/book-manager.js): a shallow embedding and its properties

    The JavaScript class [BookManager] keeps a library object
    [{ books: [...], metadata: {...} }] and mutates it in place.  The
    embedding below follows the source function by function:

    - a record object is a finite map from property names to primitive
      JavaScript values ([gmap string value]); a property that is absent
      reads as [undefined], exactly as in JavaScript;
    - the mutable [this.library], the persisted snapshots written by
      [saveLibrary] and the number of [Date.now()] calls made so far form
      the [World]; every method is a computation in a state-and-exception
      monad over that world, so that a thrown error leaves behind whatever
      had been mutated before it;
    - [Date.now], [String.prototype.trim], [String.prototype.toLowerCase]
      and regular-expression matching belong to the JavaScript host and are
      gathered in the record [Host]; network replies are arguments of the
      methods that fetch. *)

From stdpp Require Import gmap strings list fin_maps.
From Stdlib Require Import ZArith Ascii.

Open Scope Z_scope.

(** ** JavaScript values *)

(** The values that a field of a record can hold after [JSON.parse]:
    [undefined] (only as the result of reading a missing property), [null],
    booleans, numbers and strings.  Numbers are the integers (time stamps in
    epoch milliseconds, counts); JSON has no NaN, so [===] on these values is
    plain equality. *)
Inductive value : Type :=
  | VUndef
  | VNull
  | VBool (b : bool)
  | VNum (n : Z)
  | VStr (s : string).

#[global] Instance value_eq_dec : EqDecision value.
Proof. solve_decision. Defined.

#[global] Instance value_countable : Countable value.
Proof.
  refine (inj_countable'
    (λ v, match v with
          | VUndef => inl (inl ())
          | VNull => inl (inr ())
          | VBool b => inr (inl b)
          | VNum n => inr (inr (inl n))
          | VStr s => inr (inr (inr s))
          end)
    (λ x, match x with
          | inl (inl _) => VUndef
          | inl (inr _) => VNull
          | inr (inl b) => VBool b
          | inr (inr (inl n)) => VNum n
          | inr (inr (inr s)) => VStr s
          end) _).
  by intros [].
Defined.

(** [ToBoolean]: what [if (v)], [!v], [v || w] and [v && w] test. *)
Definition truthy (v : value) : bool :=
  match v with
  | VUndef | VNull => false
  | VBool b => b
  | VNum n => negb (n =? 0)
  | VStr s => negb (bool_decide (s = ""))
  end.

(** [a || b] *)
Definition jsOr (a b : value) : value := if truthy a then a else b.

(** [a === b] on primitive values *)
Definition strictEq (a b : value) : bool := bool_decide (a = b).

(** A record object; [get o k] is the property read [o.k]. *)
Abbreviation obj := (gmap string value).

Definition get (o : obj) (k : string) : value := default VUndef (o !! k).

(** An object literal [{ k1: v1, k2: v2, ... }], properties assigned from
    left to right, a later one overriding an earlier one of the same name. *)
Definition literal (props : list (string * value)) : obj :=
  foldl (λ o kv, <[kv.1 := kv.2]> o) ∅ props.

(** [...(v && { k: v })] inside an object literal: spreading a falsy
    primitive contributes nothing. *)
Definition spreadIf (k : string) (v : value) : list (string * value) :=
  if truthy v then [(k, v)] else [].

(** [Object.assign(target, { k1: v1, ... })] *)
Definition assign (target : obj) (props : list (string * value)) : obj :=
  foldl (λ o kv, <[kv.1 := kv.2]> o) target props.

(** An element of a parsed JSON array that is expected to be a record:
    either [null], on which every property read throws, or an object. *)
Inductive raw : Type :=
  | RNull
  | RObj (o : obj).

(** ** Strings *)

(** [s.includes(needle)] *)
Fixpoint includes (s needle : string) : bool :=
  String.prefix needle s ||
  match s with
  | EmptyString => false
  | String _ s' => includes s' needle
  end.

Definition isAsinChar (c : ascii) : bool :=
  let n := nat_of_ascii c in
  ((65 <=? n)%nat && (n <=? 90)%nat) || ((48 <=? n)%nat && (n <=? 57)%nat).

(** [isValidASIN]: [/^[A-Z0-9]{10}$/.test(id)] for a string [id]. *)
Definition isValidASIN (id : string) : bool :=
  (String.length id =? 10)%nat && forallb isAsinChar (String.list_ascii_of_string id).

Definition amazonImageUrl (id : string) : string :=
  "https://images-na.ssl-images-amazon.com/images/P/" +:+ id +:+ ".01.L.jpg".

(** ** The library *)

Record Metadata : Type := {
  lastImportDate : option Z;      (* null or a time stamp *)
  totalBooks : nat;
  manuallyAdded : nat;
  importedFromKindle : nat
}.

Record Library : Type := {
  books : list obj;
  metadata : Metadata
}.

(** The library built by the constructor and by [clearAllBooks]. *)
Definition emptyLibrary : Library :=
  {| books := [];
     metadata := {| lastImportDate := None; totalBooks := 0;
                    manuallyAdded := 0; importedFromKindle := 0 |} |}.

(** [books.filter(book => book.source === s).length] *)
Definition countSource (s : string) (bs : list obj) : nat :=
  length (filter (λ b, get b "source" = VStr s) bs).

(** [books.find(book => book.bookId === bookId)] together with the index
    that [findIndex] returns: the first record with that identifier. *)
Definition findBook (bookId : value) (bs : list obj) : option (nat * obj) :=
  list_find (λ b, get b "bookId" = bookId) bs.

(** ** normalizeBook and shouldUpdateBook (pure) *)

Definition normalizeBook (book : obj) (key : value) : obj :=
  literal
    ([ ("bookId", jsOr (jsOr (get book "bookId") (get book "asin")) key);
       ("title", get book "title");
       ("authors", get book "authors");
       ("acquiredTime", get book "acquiredTime");
       ("readStatus", get book "readStatus");
       ("productImage", get book "productImage");
       ("source", get book "source");
       ("addedDate", get book "addedDate") ]
     ++ spreadIf "memo" (get book "memo")
     ++ spreadIf "rating" (get book "rating")
     ++ spreadIf "updatedBookId" (get book "updatedBookId")
     ++ spreadIf "updatedBookId" (get book "updatedAsin")).

Definition shouldUpdateBook (existingBook newBook : obj) : bool :=
  negb (strictEq (get existingBook "acquiredTime") (get newBook "acquiredTime")) ||
  negb (strictEq (get existingBook "readStatus") (get newBook "readStatus")) ||
  negb (strictEq (get existingBook "title") (get newBook "title")) ||
  negb (strictEq (get existingBook "productImage") (get newBook "productImage")).

(** [getEffectiveBookId] *)
Definition getEffectiveBookId (book : obj) : value :=
  jsOr (get book "updatedBookId") (get book "bookId").

(** ** Worlds and the monad of methods *)

Inductive error : Type :=
  | TypeError                      (* thrown by the JavaScript runtime *)
  | Error (message : string).      (* [throw new Error(message)] *)

Inductive outcome (A : Type) : Type :=
  | Return (a : A)
  | Throw (e : error).
Arguments Return {A} a.
Arguments Throw {A} e.

Record World : Type := {
  library : Library;          (* this.library *)
  storage : list Library;     (* snapshots written by saveLibrary, oldest first *)
  ticks : nat                 (* number of Date.now() calls made so far *)
}.

Definition initialWorld : World :=
  {| library := emptyLibrary; storage := []; ticks := 0 |}.

Definition M (A : Type) : Type := World → World * outcome A.

#[global] Instance M_ret : MRet M := λ A a w, (w, Return a).

#[global] Instance M_bind : MBind M := λ A B f m w,
  match m w with
  | (w', Return a) => f a w'
  | (w', Throw e) => (w', Throw e)
  end.

Definition throw {A} (e : error) : M A := λ w, (w, Throw e).

(** [try { body } catch (error) { handler }] *)
Definition tryCatch {A} (body : M A) (handler : error → M A) : M A := λ w,
  match body w with
  | (w', Return a) => (w', Return a)
  | (w', Throw e) => handler e w'
  end.

Definition getBooks : M (list obj) := λ w, (w, Return (books (library w))).

Definition setBooks (bs : list obj) : M unit := λ w,
  ({| library := {| books := bs; metadata := metadata (library w) |};
      storage := storage w; ticks := ticks w |}, Return ()).

Definition getMetadata : M Metadata := λ w, (w, Return (metadata (library w))).

Definition setMetadata (md : Metadata) : M unit := λ w,
  ({| library := {| books := books (library w); metadata := md |};
      storage := storage w; ticks := ticks w |}, Return ()).

(** [saveLibrary]: writes the snapshot and returns the library. *)
Definition saveLibrary : M Library := λ w,
  ({| library := library w; storage := storage w ++ [library w];
      ticks := ticks w |}, Return (library w)).

(** Reading a property of a parsed array element. *)
Definition prop (r : raw) (k : string) : M value :=
  match r with
  | RNull => throw TypeError
  | RObj o => mret (get o k)
  end.


(** ** The JavaScript host *)

(** What the class takes from its environment.  [Date_now n] is the value
    of the [n]-th call of [Date.now()]; the string built-ins and the
    regular-expression matchers (each maps a string to the first capture
    group of its match, if any) are left open, so that everything proved
    below holds whatever they compute. *)
Record Host : Type := {
  Date_now : nat → Z;
  String_trim : string → string;
  String_toLowerCase : string → string;
  typeErrorMessage : string;
  asinPatterns : list (string → option string);
  volumeIdPatterns : list (string → option string)
}.

(** The summary object of [importFromKindle]. *)
Record importResults : Type := {
  total : nat;
  added : nat;
  updated : nat;
  skipped : nat
}.

(** An element of [duplicateBooks] and [errorBooks]. *)
Record entry : Type := {
  entryTitle : value;
  entryBookId : value;
  reason : string
}.

(** The three local arrays of [importSelectedBooks]. *)
Record selection : Type := {
  imported : list obj;
  duplicates : list entry;
  errors : list entry
}.

(** The object returned by [importSelectedBooks]:
    [{ success, total, added, updated, skipped, imported, duplicates, errors }]. *)
Record selectedResults : Type := {
  success : bool;
  counts : importResults;
  lists : selection
}.

Section Methods.

Context (host : Host).

Definition dateNow : M Z := λ w,
  ({| library := library w; storage := storage w; ticks := S (ticks w) |},
   Return (Date_now host (ticks w))).

Definition errorMessage (e : error) : string :=
  match e with
  | TypeError => typeErrorMessage host
  | Error m => m
  end.

(** [book.bookId || book.asin] on an array element *)
Definition propOr (r : raw) (k1 k2 : string) : M value :=
  v ← prop r k1;
  if truthy v then mret v else prop r k2.

(** *** importFromKindle: merge with update *)

(** One iteration of [for (const kindleBook of kindleBooks)]. *)
Definition kindleStep (kindleBook : raw) (r : importResults) : M importResults :=
  match kindleBook with
  | RNull => throw TypeError
  | RObj k =>
    let bookId := jsOr (get k "bookId") (get k "asin") in
    bs ← getBooks;
    match findBook bookId bs with
    | Some (i, existingBook) =>
      if shouldUpdateBook existingBook k then
        setBooks (<[i := assign existingBook
                            [ ("title", get k "title");
                              ("authors", get k "authors");
                              ("acquiredTime", get k "acquiredTime");
                              ("readStatus", get k "readStatus");
                              ("productImage", get k "productImage") ]]> bs);;
        mret {| total := total r; added := added r;
                updated := S (updated r); skipped := skipped r |}
      else
        mret {| total := total r; added := added r;
                updated := updated r; skipped := S (skipped r) |}
    | None =>
      now ← dateNow;
      setBooks (bs ++ [assign (normalizeBook k bookId)
                         [ ("source", VStr "kindle_import");
                           ("addedDate", VNum now) ]]);;
      mret {| total := total r; added := S (added r);
              updated := updated r; skipped := skipped r |}
    end
  end.

Fixpoint kindleLoop (kindleBooks : list raw) (r : importResults) : M importResults :=
  match kindleBooks with
  | [] => mret r
  | kindleBook :: rest => r' ← kindleStep kindleBook r; kindleLoop rest r'
  end.

(** [kindleBooks] is the parsed content of the file or of data/kindle.json. *)
Definition importFromKindle (kindleBooks : list raw) : M importResults :=
  r ← kindleLoop kindleBooks
        {| total := length kindleBooks; added := 0; updated := 0; skipped := 0 |};
  now ← dateNow;
  md ← getMetadata;
  bs ← getBooks;
  setMetadata {| lastImportDate := Some now;
                 totalBooks := length bs;
                 manuallyAdded := manuallyAdded md;
                 importedFromKindle := countSource "kindle_import" bs |};;
  saveLibrary;;
  mret r.

(** *** importSelectedBooks: insert only *)

(** One iteration of [for (const book of selectedBooks)]: the [try] block
    and its [catch] handler.  The handler starts by formatting
    [book.title] for [console.error]. *)
Definition selectedStep (existingBookIds : gset value) (book : raw)
    (acc : selection) : M selection :=
  tryCatch
    (bookId ← propOr book "bookId" "asin";
     if bool_decide (bookId ∈ existingBookIds) then
       title ← prop book "title";
       mret {| imported := imported acc;
               duplicates := duplicates acc ++
                 [{| entryTitle := title; entryBookId := bookId;
                     reason := "既に存在" |}];
               errors := errors acc |}
     else
       match book with
       | RNull => throw TypeError
       | RObj b =>
         now ← dateNow;
         let bookToAdd := assign (normalizeBook b bookId)
                            [ ("source", VStr "kindle_import");
                              ("addedDate", VNum now) ] in
         bs ← getBooks;
         setBooks (bs ++ [bookToAdd]);;
         mret {| imported := imported acc ++ [bookToAdd];
                 duplicates := duplicates acc;
                 errors := errors acc |}
       end)
    (λ error,
     prop book "title";;
     title ← prop book "title";
     bookId ← propOr book "bookId" "asin";
     mret {| imported := imported acc;
             duplicates := duplicates acc;
             errors := errors acc ++
               [{| entryTitle := title; entryBookId := bookId;
                   reason := errorMessage error |}] |}).

Fixpoint selectedLoop (existingBookIds : gset value) (selectedBooks : list raw)
    (acc : selection) : M selection :=
  match selectedBooks with
  | [] => mret acc
  | book :: rest =>
    acc' ← selectedStep existingBookIds book acc;
    selectedLoop existingBookIds rest acc'
  end.

Definition importSelectedBooks (selectedBooks : list raw) : M selectedResults :=
  bs0 ← getBooks;
  let existingBookIds : gset value := list_to_set ((λ b, get b "bookId") <$> bs0) in
  acc ← selectedLoop existingBookIds selectedBooks
          {| imported := []; duplicates := []; errors := [] |};
  bs ← getBooks;
  now ← dateNow;
  setMetadata {| totalBooks := length bs;
                 manuallyAdded := countSource "manual_add" bs;
                 importedFromKindle := countSource "kindle_import" bs;
                 lastImportDate := Some now |};;
  saveLibrary;;
  mret {| success := true;
          counts := {| total := length selectedBooks;
                       added := length (imported acc);
                       updated := 0;
                       skipped := length (duplicates acc) + length (errors acc) |};
          lists := acc |}.

(** *** Identifier checks *)

(** [isValidBookId(bookId)], as tested by [!this.isValidBookId(bookId)]:
    [bookId && bookId.trim().length > 0].  A truthy value that is not a
    string has no [trim] method. *)
Definition isValidBookId (bookId : value) : M bool :=
  if truthy bookId then
    match bookId with
    | VStr s => mret (0 <? String.length (String_trim host s))%nat
    | _ => throw TypeError
    end
  else mret false.

(** The loop of [extractASINFromUrl] and [extractVolumeIdFromGoogleUrl]:
    the capture of the first pattern that matches, else [null]. *)
Fixpoint firstMatch (patterns : list (string → option string)) (url : string)
    : option string :=
  match patterns with
  | [] => None
  | pattern :: rest =>
    match pattern url with
    | Some m => Some m
    | None => firstMatch rest url
    end
  end.

Definition extractASINFromUrl (url : string) : option string :=
  firstMatch (asinPatterns host) url.

Definition extractVolumeIdFromGoogleUrl (url : string) : option string :=
  firstMatch (volumeIdPatterns host) url.

(** *** addBookManually *)

Definition addBookManually (bookData : raw) : M obj :=
  bookId ← propOr bookData "bookId" "asin";
  valid ← (if truthy bookId then isValidBookId bookId else mret false);
  if negb valid then throw (Error "有効な識別子が必要です") else
  bs ← getBooks;
  if bool_decide (is_Some (findBook bookId bs))
  then throw (Error "この本は既に蔵書に追加されています") else
  title ← prop bookData "title";
  authors ← prop bookData "authors";
  acquiredTime ← prop bookData "acquiredTime";
  acquiredTime' ← (if truthy acquiredTime then mret acquiredTime
                   else now ← dateNow; mret (VNum now));
  readStatus ← prop bookData "readStatus";
  productImage ← prop bookData "productImage";
  source ← prop bookData "source";
  addedDate ← dateNow;
  let newBook := literal
    [ ("bookId", bookId);
      ("title", jsOr title (VStr "タイトル未設定"));
      ("authors", jsOr authors (VStr "著者未設定"));
      ("acquiredTime", acquiredTime');
      ("readStatus", jsOr readStatus (VStr "UNKNOWN"));
      ("productImage",
         jsOr productImage
              (match bookId with
               | VStr s => if isValidASIN s then VStr (amazonImageUrl s) else VNull
               | _ => VNull
               end));
      ("source", jsOr source (VStr "manual_add"));
      ("addedDate", VNum addedDate) ] in
  setBooks (bs ++ [newBook]);;
  md ← getMetadata;
  setMetadata {| lastImportDate := lastImportDate md;
                 totalBooks := length (bs ++ [newBook]);
                 manuallyAdded := countSource "manual_add" (bs ++ [newBook]);
                 importedFromKindle := importedFromKindle md |};;
  saveLibrary;;
  mret newBook.

(** *** Adding from a marketplace link *)

(** [volumeInfo] of a Google Books reply: the fields the class reads. *)
Record volumeInfo : Type := {
  viTitle : value;
  viAuthors : option (list string);     (* an array, when present *)
  viImageLinks : option obj
}.

(** The reply to a search request: the request fails, or [data.items]. *)
Inductive searchReply : Type :=
  | SearchFailed
  | SearchItems (items : list volumeInfo).

Definition searchedBook (asin : string) (book : volumeInfo) : M obj :=
  now ← dateNow;
  mret (literal
    [ ("bookId", VStr asin);
      ("title", jsOr (viTitle book) (VStr "タイトル未取得"));
      ("authors", match viAuthors book with
                  | Some l => VStr (String.concat ", " l)
                  | None => VStr "著者未取得"
                  end);
      ("acquiredTime", VNum now);
      ("readStatus", VStr "UNKNOWN");
      ("productImage",
         match viImageLinks book with
         | Some links =>
           jsOr (jsOr (get links "large") (get links "medium")) (get links "thumbnail")
         | None => VStr (amazonImageUrl asin)
         end) ]).

(** [fetchFromGoogleBooks]: the ISBN search, then the general search. *)
Definition fetchFromGoogleBooks (asin : string) (isbnReply generalReply : searchReply)
    : M obj :=
  match isbnReply with
  | SearchFailed => throw TypeError
  | SearchItems (book :: _) => searchedBook asin book
  | SearchItems [] =>
    match generalReply with
    | SearchFailed => throw TypeError
    | SearchItems (book :: _) => searchedBook asin book
    | SearchItems [] => throw (Error "書籍が見つかりませんでした")
    end
  end.

Definition generateSmartBookData (bookId : string) : M obj :=
  now ← dateNow;
  mret (literal
    [ ("bookId", VStr bookId);
      ("title", VStr "");
      ("authors", VStr "");
      ("acquiredTime", VNum now);
      ("readStatus", VStr "UNKNOWN");
      ("productImage",
         if isValidASIN bookId then VStr (amazonImageUrl bookId) else VNull) ]).

Definition fetchBookDataFromAmazon (asin : string)
    (isbnReply generalReply : searchReply) : M obj :=
  found ← tryCatch
    (googleBooksData ← fetchFromGoogleBooks asin isbnReply generalReply;
     if truthy (get googleBooksData "title") &&
        negb (strictEq (get googleBooksData "title") (VStr "タイトル未取得"))
     then mret (Some googleBooksData) else mret None)
    (λ _, mret None);
  match found with
  | Some googleBooksData => mret googleBooksData
  | None => generateSmartBookData asin
  end.

Definition addBookFromAmazonUrl (url : string)
    (isbnReply generalReply : searchReply) : M obj :=
  match extractASINFromUrl url with
  | None => throw (Error "有効なAmazonリンクではありません")
  | Some asin =>
    if bool_decide (asin = "") then throw (Error "有効なAmazonリンクではありません") else
    bookData ← fetchBookDataFromAmazon asin isbnReply generalReply;
    addBookManually (RObj bookData)
  end.

(** *** Adding from the catalog *)

(** The reply to the request for one volume: the request fails, the
    response is not ok, or [data.volumeInfo] (possibly missing). *)
Inductive volumeReply : Type :=
  | FetchRejected
  | ResponseNotOk
  | ResponseOk (info : option volumeInfo).

Definition getBestGoogleBooksImage (imageLinks : option obj) : value :=
  match imageLinks with
  | None => VNull
  | Some links =>
    jsOr (jsOr (jsOr (jsOr (get links "extraLarge") (get links "large"))
                     (get links "medium"))
               (get links "small"))
         (get links "thumbnail")
  end.

Definition fetchFromGoogleBooksById (volumeId : string) (reply : volumeReply) : M obj :=
  match reply with
  | FetchRejected => throw TypeError
  | ResponseNotOk => throw (Error "書籍情報の取得に失敗しました")
  | ResponseOk None => throw TypeError
  | ResponseOk (Some info) =>
    acquiredTime ← dateNow;
    addedDate ← dateNow;
    mret (literal
      [ ("bookId", VStr volumeId);
        ("title", jsOr (viTitle info) (VStr "タイトル未取得"));
        ("authors", jsOr (match viAuthors info with
                          | Some l => VStr (String.concat ", " l)
                          | None => VUndef
                          end) (VStr "著者未取得"));
        ("productImage", getBestGoogleBooksImage (viImageLinks info));
        ("source", VStr "google_books");
        ("acquiredTime", VNum acquiredTime);
        ("readStatus", VStr "UNKNOWN");
        ("addedDate", VNum addedDate) ])
  end.

Definition addBookFromGoogleBooks (urlOrId : string) (reply : volumeReply) : M obj :=
  volumeId ←
    (if includes urlOrId "google.com" || includes urlOrId "play.google.com" then
       match extractVolumeIdFromGoogleUrl urlOrId with
       | Some v =>
         if bool_decide (v = "")
         then throw (Error "有効なGoogle BooksのURLではありません") else mret v
       | None => throw (Error "有効なGoogle BooksのURLではありません")
       end
     else mret urlOrId);
  bs ← getBooks;
  if bool_decide (is_Some (findBook (VStr volumeId) bs))
  then throw (Error "この本は既に蔵書に追加されています") else
  bookData ← fetchFromGoogleBooksById volumeId reply;
  setBooks (bs ++ [bookData]);;
  md ← getMetadata;
  setMetadata {| lastImportDate := lastImportDate md;
                 totalBooks := length (bs ++ [bookData]);
                 manuallyAdded := manuallyAdded md;
                 importedFromKindle := importedFromKindle md |};;
  saveLibrary;;
  mret bookData.

(** *** deleteBook, clearAllBooks, updateBook *)

Definition deleteBook (bookId : value) (hardDelete : bool) : M bool :=
  bs ← getBooks;
  match findBook bookId bs with
  | None => throw (Error "指定された書籍が見つかりません")
  | Some (bookIndex, _) =>
    (if hardDelete then
       setBooks (delete bookIndex bs);;
       md ← getMetadata;
       setMetadata {| lastImportDate := lastImportDate md;
                      totalBooks := length (delete bookIndex bs);
                      manuallyAdded := countSource "manual_add" (delete bookIndex bs);
                      importedFromKindle :=
                        countSource "kindle_import" (delete bookIndex bs) |}
     else (mret () : M unit));;
    saveLibrary;;
    mret true
  end.

Definition clearAllBooks : M bool :=
  setBooks [];;
  setMetadata {| totalBooks := 0; manuallyAdded := 0; importedFromKindle := 0;
                 lastImportDate := None |};;
  saveLibrary;;
  mret true.

(** The body of [Object.keys(updates).forEach(key => ...)]. *)
Definition applyUpdate (book : obj) (kv : string * value) : obj :=
  match kv.2 with
  | VUndef => delete kv.1 book
  | v => <[kv.1 := v]> book
  end.

Definition updateBook (bookId : value) (updates : obj) : M obj :=
  bs ← getBooks;
  match findBook bookId bs with
  | None => throw (Error "指定された書籍が見つかりません")
  | Some (bookIndex, book) =>
    let book' := foldl applyUpdate book (map_to_list updates) in
    let bs' := <[bookIndex := book']> bs in
    setBooks bs';;
    md ← getMetadata;
    setMetadata {| lastImportDate := lastImportDate md;
                   totalBooks := length bs';
                   manuallyAdded := countSource "manual_add" bs';
                   importedFromKindle := countSource "kindle_import" bs' |};;
    saveLibrary;;
    mret book'
  end.

(** *** searchBooks *)

(** [v.toLowerCase().includes(lowercaseQuery)]: only a string has the
    method. *)
Definition lowerIncludes (v : value) (lowercaseQuery : string) : M bool :=
  match v with
  | VStr s => mret (includes (String_toLowerCase host s) lowercaseQuery)
  | _ => throw TypeError
  end.

(** The predicate given to [filter]; [||] evaluates its right operand only
    when the left one is false. *)
Definition searchMatch (lowercaseQuery : string) (book : obj) : M bool :=
  inTitle ← lowerIncludes (get book "title") lowercaseQuery;
  if (inTitle : bool) then mret true else lowerIncludes (get book "authors") lowercaseQuery.

(** [Array.prototype.filter] with a predicate that may throw. *)
Fixpoint filterM (p : obj → M bool) (bs : list obj) : M (list obj) :=
  match bs with
  | [] => mret []
  | b :: rest =>
    keep ← p b;
    kept ← filterM p rest;
    mret (if (keep : bool) then b :: kept else kept)
  end.

Definition searchBooks (query : string) : M (list obj) :=
  let lowercaseQuery := String_toLowerCase host query in
  bs ← getBooks;
  filterM (searchMatch lowercaseQuery) bs.

(** [findBookById] *)
Definition findBookById (bookId : value) : M (option obj) :=
  bs ← getBooks;
  mret (snd <$> findBook bookId bs).

End Methods.

(** ** initialize: loading from data/library.json *)

(** The parsed content of data/library.json: [books] is an object keyed by
    identifier (its entries in order), [stats?.totalBooks] a count when
    present, [exportDate] a time stamp when present. *)
Record libraryData : Type := {
  ldBooks : list (string * raw);
  ldStatsTotalBooks : option nat;
  ldExportDate : option Z
}.

(** [entries.map(([key, book]) => normalizeBook(book, key))]; reading a
    property of a [null] entry throws. *)
Fixpoint normalizeEntries (entries : list (string * raw)) : option (list obj) :=
  match entries with
  | [] => Some []
  | (key, RObj book) :: rest =>
    bs ← normalizeEntries rest; Some (normalizeBook book (VStr key) :: bs)
  | (_, RNull) :: _ => None
  end.

(** [stats?.totalBooks || Object.keys(books).length] *)
Definition statsTotalOr (stats : option nat) (n : nat) : nat :=
  match stats with
  | Some (S k) => S k
  | _ => n
  end.

(** The branch of [initialize] taken when localStorage holds no library:
    [libraryJson] is the content of data/library.json, if it could be
    fetched and parsed; any failure leaves the empty library. *)
Definition initializeFromFile (libraryJson : option libraryData) : M unit := λ w,
  let lib :=
    match libraryJson with
    | Some d =>
      match normalizeEntries (ldBooks d) with
      | Some bs =>
        {| books := bs;
           metadata :=
             {| totalBooks := statsTotalOr (ldStatsTotalBooks d) (length (ldBooks d));
                manuallyAdded := 0;
                importedFromKindle :=
                  statsTotalOr (ldStatsTotalBooks d) (length (ldBooks d));
                lastImportDate := ldExportDate d |} |}
      | None => emptyLibrary
      end
    | None => emptyLibrary
    end in
  ({| library := lib; storage := storage w; ticks := ticks w |}, Return ()).

(** ** Sequences of operations *)

(** The mutating methods with their arguments (and the replies of the
    network, for those that fetch). *)
Inductive operation : Type :=
  | ImportFromKindle (kindleBooks : list raw)
  | ImportSelectedBooks (selectedBooks : list raw)
  | AddBookManually (bookData : raw)
  | AddBookFromAmazonUrl (url : string) (isbnReply generalReply : searchReply)
  | AddBookFromGoogleBooks (urlOrId : string) (reply : volumeReply)
  | UpdateBook (bookId : value) (updates : obj)
  | DeleteBook (bookId : value) (hardDelete : bool)
  | ClearAllBooks.

(** The world a method leaves behind, whether it returns or throws. *)
Definition after {A} (m : M A) (w : World) : World := (m w).1.

Definition perform (host : Host) (op : operation) : World → World :=
  match op with
  | ImportFromKindle kindleBooks => after (importFromKindle host kindleBooks)
  | ImportSelectedBooks selectedBooks => after (importSelectedBooks host selectedBooks)
  | AddBookManually bookData => after (addBookManually host bookData)
  | AddBookFromAmazonUrl url r1 r2 => after (addBookFromAmazonUrl host url r1 r2)
  | AddBookFromGoogleBooks urlOrId reply => after (addBookFromGoogleBooks host urlOrId reply)
  | UpdateBook bookId updates => after (updateBook bookId updates)
  | DeleteBook bookId hardDelete => after (deleteBook bookId hardDelete)
  | ClearAllBooks => after clearAllBooks
  end.

Definition performAll (host : Host) (ops : list operation) (w : World) : World :=
  foldl (λ w op, perform host op w) w ops.

(** ** A host to run examples on *)

Definition isSpace (c : ascii) : bool :=
  let n := nat_of_ascii c in
  (n =? 32)%nat || ((9 <=? n)%nat && (n <=? 13)%nat).

Fixpoint dropSpaces (l : list ascii) : list ascii :=
  match l with
  | c :: l' => if isSpace c then dropSpaces l' else l
  | [] => []
  end.

Definition asciiTrim (s : string) : string :=
  String.string_of_list_ascii
    (reverse (dropSpaces (reverse (dropSpaces (String.list_ascii_of_string s))))).

Definition asciiLower (c : ascii) : ascii :=
  let n := nat_of_ascii c in
  if (65 <=? n)%nat && (n <=? 90)%nat then ascii_of_nat (n + 32) else c.

Definition asciiToLowerCase (s : string) : string :=
  String.string_of_list_ascii (asciiLower <$> String.list_ascii_of_string s).

(** A host whose clock starts at 1700000000000 and advances by one
    millisecond per call, whose string built-ins act on ASCII, and whose
    patterns match nothing. *)
Definition exampleHost : Host :=
  {| Date_now := λ n, 1700000000000 + Z.of_nat n;
     String_trim := asciiTrim;
     String_toLowerCase := asciiToLowerCase;
     typeErrorMessage := "TypeError";
     asinPatterns := [];
     volumeIdPatterns := [] |}.

(** * Vocabulary of the properties *)

Arguments assign : simpl never.
Arguments literal : simpl never.
Arguments normalizeBook : simpl never.

(** Unfolds the monad and the primitive accesses to the world. *)
Ltac mrun :=
  unfold after, mbind, M_bind, mret, M_ret, throw, tryCatch, getBooks, setBooks,
    getMetadata, setMetadata, saveLibrary, dateNow;
  simpl.

(** ** Batch imports *)

(** The identifier a batch import resolves for a candidate:
    [book.bookId || book.asin]. *)
Definition candidateId (k : obj) : value := jsOr (get k "bookId") (get k "asin").

(** The record a batch import inserts for a candidate. *)
Definition importedRecord (k : obj) (now : Z) : obj :=
  assign (normalizeBook k (candidateId k))
    [ ("source", VStr "kindle_import"); ("addedDate", VNum now) ].

(** The world after [this.library.books.push(b)] preceded by one
    [Date.now()]. *)
Definition pushBook (b : obj) (w : World) : World :=
  {| library := {| books := books (library w) ++ [b];
                   metadata := metadata (library w) |};
     storage := storage w; ticks := S (ticks w) |}.

(** The properties written by [Object.assign] on the update path. *)
Definition overwrittenFields : list string :=
  [ "title"; "authors"; "acquiredTime"; "readStatus"; "productImage" ].

(** The record left by the update path of [importFromKindle]. *)
Definition updatedRecord (existingBook k : obj) : obj :=
  assign existingBook
    [ ("title", get k "title"); ("authors", get k "authors");
      ("acquiredTime", get k "acquiredTime"); ("readStatus", get k "readStatus");
      ("productImage", get k "productImage") ].

Definition withBooks (bs : list obj) (w : World) : World :=
  {| library := {| books := bs; metadata := metadata (library w) |};
     storage := storage w; ticks := ticks w |}.

(** The fields that [shouldUpdateBook] compares. *)
Definition compared (o : obj) : value * value * value * value :=
  (get o "acquiredTime", get o "readStatus", get o "title", get o "productImage").

(** Candidates of a batch that resolve to the same identifier carry the
    same values in the compared fields. *)
Definition batchAgrees (batch : list obj) : Prop :=
  ∀ k1 k2, k1 ∈ batch → k2 ∈ batch →
    candidateId k1 = candidateId k2 → compared k1 = compared k2.

(** The record that a lookup of the candidate's identifier finds equals the
    candidate on the compared fields. *)
Definition inSync (bs : list obj) (k : obj) : Prop :=
  ∃ i b, findBook (candidateId k) bs = Some (i, b) ∧ compared b = compared k.

(** ** Identifiers *)

Definition bookIds (bs : list obj) : list value := (λ b, get b "bookId") <$> bs.

(** No two records share a [bookId]. *)
Definition distinctIds (w : World) : Prop := NoDup (bookIds (books (library w))).

(** The identifiers resolved for the record candidates of a batch. *)
Definition rawIds (batch : list raw) : list value :=
  omap (λ r, match r with RObj k => Some (candidateId k) | RNull => None end) batch.

(** The operations after which identifiers stay distinct: an update must
    not name [bookId], an insert-only batch must not repeat an identifier. *)
Definition keepsIdsDistinct (op : operation) : Prop :=
  match op with
  | UpdateBook _ updates => updates !! "bookId" = None
  | ImportSelectedBooks selectedBooks => NoDup (rawIds selectedBooks)
  | _ => True
  end.

(** ** Counters *)

(** The three counters of the metadata equal the counts they stand for. *)
Definition statsConsistent (l : Library) : Prop :=
  totalBooks (metadata l) = length (books l)
  ∧ manuallyAdded (metadata l) = countSource "manual_add" (books l)
  ∧ importedFromKindle (metadata l) = countSource "kindle_import" (books l).

(** The operations that keep the counters consistent: a batch must not
    contain [null] (the import would stop half-way, before the counters are
    recomputed), and a manual add must not carry the source
    ['kindle_import']. *)
Definition keepsCounters (op : operation) : Prop :=
  match op with
  | ImportFromKindle batch | ImportSelectedBooks batch => RNull ∉ batch
  | AddBookManually (RObj d) =>
    jsOr (get d "source") (VStr "manual_add") ≠ VStr "kindle_import"
  | _ => True
  end.

(** ** Search *)

Definition isString (v : value) : Prop := ∃ s, v = VStr s.

(** What a search is expected to return: the string [v], lower-cased,
    contains the lower-cased query. *)
Definition containsQuery (host : Host) (lowercaseQuery : string) (v : value) : bool :=
  match v with
  | VStr s => includes (String_toLowerCase host s) lowercaseQuery
  | _ => false
  end.

(** The record matches the query in its title or in its authors (the
    expected result of the predicate given to [filter]). *)
Definition matchesQuery (host : Host) (lowercaseQuery : string) (book : obj) : bool :=
  containsQuery host lowercaseQuery (get book "title") ||
  containsQuery host lowercaseQuery (get book "authors").

(** The host can lower-case queries to strings of any length (as
    [toLowerCase] does: it leaves a run of the letter a unchanged). *)
Definition longQueries (host : Host) : Prop :=
  ∀ n : nat, ∃ query, (n < String.length (String_toLowerCase host query))%nat.

(** ** Decidability *)

#[global] Instance raw_eq_dec : EqDecision raw.
Proof. solve_decision. Defined.

#[global] Instance isString_dec v : Decision (isString v).
Proof.
  refine (match v with VStr s => left _ | _ => right _ end);
    unfold isString; [| | | |by eexists]; by intros [? ?].
Defined.

#[global] Instance keepsIdsDistinct_dec op : Decision (keepsIdsDistinct op).
Proof. destruct op; simpl; apply _. Defined.

#[global] Instance keepsCounters_dec op : Decision (keepsCounters op).
Proof. destruct op as [| |[|d]| | | | |]; simpl; apply _. Defined.

#[global] Instance statsConsistent_dec l : Decision (statsConsistent l).
Proof. unfold statsConsistent. apply _. Defined.

#[global] Instance distinctIds_dec w : Decision (distinctIds w).
Proof. unfold distinctIds. apply _. Defined.

(** ** Data for the examples *)

Definition candidateA : obj := literal [ ("bookId", VStr "A"); ("title", VStr "T1") ].

Definition candidateA' : obj := literal [ ("bookId", VStr "A"); ("title", VStr "T2") ].

Definition recordA : obj :=
  literal [ ("bookId", VStr "A"); ("title", VStr "T"); ("authors", VStr "X");
            ("source", VStr "kindle_import"); ("addedDate", VNum 1) ].

(** A library that holds [recordA] only. *)
Definition worldA : World :=
  {| library :=
       {| books := [recordA];
          metadata := {| lastImportDate := None; totalBooks := 1;
                         manuallyAdded := 0; importedFromKindle := 1 |} |};
     storage := []; ticks := 0 |}.

(** A library whose second record was normalized from a raw record
    without [authors]. *)
Definition untitledWorld : World :=
  {| library :=
       {| books := [ recordA;
                     normalizeBook (literal [ ("bookId", VStr "B");
                                              ("title", VStr "Rocq") ]) VNull ];
          metadata := {| lastImportDate := None; totalBooks := 2;
                         manuallyAdded := 0; importedFromKindle := 1 |} |};
     storage := []; ticks := 0 |}.

(** * Properties *)

(** ** Reading objects *)

Lemma get_insert_eq (o : obj) k v : get (<[k := v]> o) k = v.
Proof. unfold get. by rewrite lookup_insert_eq. Qed.

Lemma get_insert_ne (o : obj) k k' v : k ≠ k' → get (<[k := v]> o) k' = get o k'.
Proof. intros. unfold get. by rewrite lookup_insert_ne. Qed.

Lemma assign_lookup_other (o : obj) props k :
  k ∉ props.*1 → assign o props !! k = o !! k.
Proof.
  unfold assign. revert o.
  induction props as [|[k0 v0] props IH]; intros o Hk; [done|].
  simpl in *. apply not_elem_of_cons in Hk as [Hne Hk].
  rewrite IH by done. by rewrite lookup_insert_ne.
Qed.

Lemma jsOr_idem a : jsOr a a = a.
Proof. unfold jsOr. by destruct (truthy a). Qed.

Lemma literal_snoc props k v : literal (props ++ [(k, v)]) = <[k := v]> (literal props).
Proof. unfold literal. by rewrite foldl_app. Qed.

Lemma literal_app_spreadIf props k v :
  literal (props ++ spreadIf k v) =
  if truthy v then <[k := v]> (literal props) else literal props.
Proof.
  unfold spreadIf. destruct (truthy v).
  - apply literal_snoc.
  - by rewrite app_nil_r.
Qed.

(** The identifier under which [normalizeBook] files a candidate. *)
Lemma normalizeBook_bookId book key :
  get (normalizeBook book key) "bookId"
  = jsOr (jsOr (get book "bookId") (get book "asin")) key.
Proof.
  unfold normalizeBook. rewrite !app_assoc, !literal_app_spreadIf.
  repeat case_match; unfold literal; simpl;
    repeat (rewrite get_insert_ne by done); apply get_insert_eq.
Qed.

Lemma normalizeBook_updatedBookId book key :
  normalizeBook book key !! "updatedBookId" =
  if truthy (get book "updatedAsin") then Some (get book "updatedAsin")
  else if truthy (get book "updatedBookId") then Some (get book "updatedBookId")
  else None.
Proof.
  unfold normalizeBook. rewrite !app_assoc, !literal_app_spreadIf.
  repeat case_match; unfold literal; simpl;
    repeat (rewrite lookup_insert_ne by done);
    try apply lookup_insert_eq; apply lookup_empty.
Qed.

(** ** normalizeBook: the superseding identifier *)

(** C6.  On a raw record that carries both [updatedBookId] (current schema)
    and [updatedAsin] (legacy alias), [normalizeBook] returns the legacy
    value: the spread of [updatedAsin] comes last in the object literal and
    overrides the property written from [updatedBookId]. *)
Theorem normalizeBook_both_superseding_fields :
  get (normalizeBook
         (literal [ ("bookId", VStr "B000000001");
                    ("updatedBookId", VStr "B00CURRENT");
                    ("updatedAsin", VStr "B00LEGACY0") ]) VNull)
      "updatedBookId"
  = VStr "B00LEGACY0".
Proof. unfold get. rewrite normalizeBook_updatedBookId. reflexivity. Qed.

(** ** importSelectedBooks: a new identifier repeated in one batch *)

(** C2.  On the empty library, [importSelectedBooks] with a batch of two
    candidates carrying the same new identifier inserts both: [added] is 2,
    nothing is listed under [duplicates], and the library holds two records
    with that identifier.  The set [existingBookIds] is computed before the
    loop and never extended. *)
Theorem importSelectedBooks_repeated_new_id (host : Host) :
  ∃ w r,
    importSelectedBooks host [RObj candidateA; RObj candidateA] initialWorld
      = (w, Return r)
    ∧ added (counts r) = 2%nat
    ∧ duplicates (lists r) = []
    ∧ (λ b, get b "bookId") <$> books (library w) = [VStr "A"; VStr "A"].
Proof.
  eexists _, _. split; [vm_compute; reflexivity|].
  split_and!; vm_compute; reflexivity.
Qed.

(** ** Looking up an identifier *)

Lemma findBook_present bookId (bs : list obj) :
  (∃ b, b ∈ bs ∧ get b "bookId" = bookId) → is_Some (findBook bookId bs).
Proof. intros (b & Hb & Hid). by eapply list_find_elem_of. Qed.

Lemma findBook_absent bookId (bs : list obj) :
  (∀ b, b ∈ bs → get b "bookId" ≠ bookId) → findBook bookId bs = None.
Proof. intros H. apply list_find_None, Forall_forall. exact H. Qed.

(** ** deleteBook *)

(** C9.  For an identifier present in the collection, [deleteBook] without
    [hardDelete] leaves the record sequence and the metadata as they are
    and writes one snapshot; for an identifier that is absent, it throws
    the not-found error in either mode and changes nothing, the persisted
    snapshots included. *)
Theorem deleteBook_soft_or_absent (w : World) (bookId : value) :
  ((∃ b, b ∈ books (library w) ∧ get b "bookId" = bookId) →
     deleteBook bookId false w
     = ({| library := library w; storage := storage w ++ [library w];
           ticks := ticks w |}, Return true))
  ∧ ((∀ b, b ∈ books (library w) → get b "bookId" ≠ bookId) →
     ∀ hardDelete,
       deleteBook bookId hardDelete w
       = (w, Throw (Error "指定された書籍が見つかりません"))).
Proof.
  split.
  - intros H. apply findBook_present in H as [[i b] Hf].
    unfold deleteBook. mrun. by rewrite Hf.
  - intros H hardDelete. apply findBook_absent in H.
    unfold deleteBook. mrun. by rewrite H.
Qed.

Lemma deleteBook_soft_or_absent_witness :
  deleteBook (VStr "A") false worldA
  = ({| library := library worldA; storage := [library worldA]; ticks := 0 |},
     Return true)
  ∧ deleteBook (VStr "Z") true worldA
    = (worldA, Throw (Error "指定された書籍が見つかりません")).
Proof.
  split.
  - apply (proj1 (deleteBook_soft_or_absent worldA (VStr "A"))).
    exists recordA. split; [apply list_elem_of_here | reflexivity].
  - apply (proj2 (deleteBook_soft_or_absent worldA (VStr "Z"))).
    intros b Hb. apply list_elem_of_singleton in Hb as ->. vm_compute. discriminate.
Defined.

(** ** updateBook *)

Lemma foldl_applyUpdate_other (l : list (string * value)) (book : obj) k :
  k ∉ l.*1 → foldl applyUpdate book l !! k = book !! k.
Proof.
  revert book. induction l as [|[k0 v0] l IH]; intros book Hk; [done|].
  simpl in *. apply not_elem_of_cons in Hk as [Hne Hk].
  rewrite IH by done. unfold applyUpdate; simpl.
  destruct v0; by rewrite ?lookup_delete_ne, ?lookup_insert_ne.
Qed.

Lemma foldl_applyUpdate_key (l : list (string * value)) (book : obj) k v :
  NoDup l.*1 → (k, v) ∈ l →
  foldl applyUpdate book l !! k = match v with VUndef => None | _ => Some v end.
Proof.
  revert book. induction l as [|[k0 v0] l IH]; intros book Hnd Hin.
  - by apply elem_of_nil in Hin.
  - simpl in *. apply NoDup_cons in Hnd as [Hk0 Hnd].
    apply elem_of_cons in Hin as [[= <- <-]|Hin].
    + rewrite foldl_applyUpdate_other by done. unfold applyUpdate; simpl.
      destruct v; by rewrite ?lookup_delete_eq, ?lookup_insert_eq.
    + by apply IH.
Qed.

(** What [updateBook] does to the properties of the record it finds. *)
Lemma updated_record_lookup (updates book : obj) k :
  foldl applyUpdate book (map_to_list updates) !! k =
  match updates !! k with
  | None => book !! k
  | Some VUndef => None
  | Some v => Some v
  end.
Proof.
  destruct (updates !! k) as [v|] eqn:Hk.
  - rewrite (foldl_applyUpdate_key _ _ k v).
    + by destruct v.
    + apply NoDup_fst_map_to_list.
    + by apply elem_of_map_to_list.
  - apply foldl_applyUpdate_other.
    intros Hin. apply list_elem_of_fmap in Hin as ([k' v'] & -> & Hin).
    apply elem_of_map_to_list in Hin. simpl in *. congruence.
Qed.

(** C7 (as stated, refuted).  [updateBook] with an [updates] object that
    names [bookId], [addedDate] and [source] overwrites all three. *)
Lemma updateBook_rewrites_identity :
  ∃ w' book',
    updateBook (VStr "A")
      (literal [ ("bookId", VStr "B"); ("addedDate", VNum 2);
                 ("source", VStr "manual_add") ]) worldA
    = (w', Return book')
    ∧ books (library w') = [book']
    ∧ get book' "bookId" ≠ get recordA "bookId"
    ∧ get book' "addedDate" ≠ get recordA "addedDate"
    ∧ get book' "source" ≠ get recordA "source".
Proof.
  eexists _, _. split; [vm_compute; reflexivity|].
  split_and!; vm_compute; done.
Qed.

(** C7 (amended).  [updateBook] on an identifier that is present returns
    the first record with that identifier, updated in place: every property
    that [updates] does not name keeps its value — so [bookId], [addedDate]
    and [source] are unchanged whenever [updates] has none of these keys —
    while a property that [updates] names takes the given value, or is
    removed when that value is [undefined].  The other records stay as they
    are. *)
Theorem updateBook_frame (w : World) (bookId : value) (updates : obj) i book :
  findBook bookId (books (library w)) = Some (i, book) →
  ∃ w' book',
    updateBook bookId updates w = (w', Return book')
    ∧ books (library w') = <[i := book']> (books (library w))
    ∧ (∀ k, updates !! k = None → book' !! k = book !! k)
    ∧ (∀ k v, updates !! k = Some v → v ≠ VUndef → book' !! k = Some v)
    ∧ (∀ k, updates !! k = Some VUndef → book' !! k = None).
Proof.
  intros Hf. unfold updateBook. mrun. rewrite Hf. eexists _, _.
  split; [reflexivity|]. simpl. split; [reflexivity|].
  split_and!.
  - intros k Hk. by rewrite updated_record_lookup, Hk.
  - intros k v Hk Hv. rewrite updated_record_lookup, Hk. by destruct v.
  - intros k Hk. by rewrite updated_record_lookup, Hk.
Qed.

Lemma updateBook_frame_witness :
  ∃ w' book',
    updateBook (VStr "A") (literal [ ("title", VStr "T2"); ("memo", VUndef) ]) worldA
    = (w', Return book')
    ∧ book' !! "bookId" = recordA !! "bookId"
    ∧ book' !! "addedDate" = recordA !! "addedDate"
    ∧ book' !! "source" = recordA !! "source"
    ∧ book' !! "title" = Some (VStr "T2").
Proof.
  destruct (updateBook_frame worldA (VStr "A")
              (literal [ ("title", VStr "T2"); ("memo", VUndef) ]) 0 recordA)
    as (w' & book' & Hrun & _ & Hkeep & Hset & _).
  - vm_compute. reflexivity.
  - exists w', book'. split; [exact Hrun|]. split_and!.
    + apply Hkeep. vm_compute. reflexivity.
    + apply Hkeep. vm_compute. reflexivity.
    + apply Hkeep. vm_compute. reflexivity.
    + apply (Hset "title" (VStr "T2")); [vm_compute; reflexivity | discriminate].
Defined.

(** ** importFromKindle: a candidate that matches an existing record *)

(** C3 (as stated, refuted).  A candidate that differs from the existing
    record in [title] also replaces its [authors]. *)
Lemma importFromKindle_overwrites_authors :
  ∃ w' r book',
    importFromKindle exampleHost
      [RObj (literal [ ("bookId", VStr "A"); ("title", VStr "T2");
                       ("authors", VStr "Y") ])] worldA
    = (w', Return r)
    ∧ updated r = 1%nat
    ∧ books (library w') = [book']
    ∧ get recordA "authors" = VStr "X"
    ∧ get book' "authors" = VStr "Y".
Proof.
  eexists _, _, _. split; [vm_compute; reflexivity|].
  split_and!; vm_compute; reflexivity.
Qed.

(** C3 (amended).  When the candidate's identifier matches an existing
    record and one of [acquiredTime], [readStatus], [title], [productImage]
    differs, the five properties [title], [authors], [acquiredTime],
    [readStatus] and [productImage] of that record take the candidate's
    values, every other property of it ([bookId], [addedDate], [source],
    [memo], ...) and every other record are left as they were, and the
    candidate counts as updated; when none of the four differs, nothing
    changes at all and the candidate counts as skipped. *)
Theorem kindleStep_existing (host : Host) (w : World) (k : obj)
    (r : importResults) i existingBook :
  findBook (jsOr (get k "bookId") (get k "asin")) (books (library w))
    = Some (i, existingBook) →
  if shouldUpdateBook existingBook k then
    ∃ book',
      kindleStep host (RObj k) r w
      = ({| library := {| books := <[i := book']> (books (library w));
                          metadata := metadata (library w) |};
            storage := storage w; ticks := ticks w |},
         Return {| total := total r; added := added r;
                   updated := S (updated r); skipped := skipped r |})
      ∧ (∀ f, f ∈ overwrittenFields → get book' f = get k f)
      ∧ (∀ f, f ∉ overwrittenFields → book' !! f = existingBook !! f)
  else
    kindleStep host (RObj k) r w
    = (w, Return {| total := total r; added := added r;
                    updated := updated r; skipped := S (skipped r) |}).
Proof.
  intros Hf. unfold kindleStep. mrun. rewrite Hf.
  destruct (shouldUpdateBook existingBook k); [|reflexivity].
  eexists. split; [reflexivity|]. split.
  - intros f Hin. unfold overwrittenFields in Hin.
    repeat (apply elem_of_cons in Hin as [->|Hin]);
      [..|by apply elem_of_nil in Hin];
      unfold assign; simpl;
      repeat (rewrite get_insert_ne by done); apply get_insert_eq.
  - intros f Hout. by apply assign_lookup_other.
Qed.

Lemma kindleStep_existing_witness :
  ∃ book',
    (kindleStep exampleHost
       (RObj (literal [ ("bookId", VStr "A"); ("title", VStr "T2") ]))
       {| total := 1; added := 0; updated := 0; skipped := 0 |} worldA).2
    = Return {| total := 1; added := 0; updated := 1; skipped := 0 |}
    ∧ get book' "title" = VStr "T2"
    ∧ book' !! "source" = Some (VStr "kindle_import").
Proof.
  pose proof (kindleStep_existing exampleHost worldA
                (literal [ ("bookId", VStr "A"); ("title", VStr "T2") ])
                {| total := 1; added := 0; updated := 0; skipped := 0 |}
                0 recordA) as H.
  assert (Hs : shouldUpdateBook recordA
                 (literal [ ("bookId", VStr "A"); ("title", VStr "T2") ]) = true)
    by (vm_compute; reflexivity).
  rewrite Hs in H.
  destruct H as (book' & Hrun & Hnew & Hold); [vm_compute; reflexivity|].
  exists book'. split; [by rewrite Hrun|]. split.
  - rewrite Hnew; [vm_compute; reflexivity|]. unfold overwrittenFields.
    apply list_elem_of_here.
  - rewrite Hold; [vm_compute; reflexivity|]. unfold overwrittenFields.
    vm_compute. intros Hin. by repeat (apply elem_of_cons in Hin as [?|Hin]; [done|]);
      apply elem_of_nil in Hin.
Defined.

(** ** searchBooks *)

Lemma searchMatch_strings host lq book w :
  isString (get book "title") → isString (get book "authors") →
  searchMatch host lq book w = (w, Return (matchesQuery host lq book)).
Proof.
  intros [t Ht] [a Ha]. unfold searchMatch, matchesQuery, lowerIncludes.
  rewrite Ht, Ha. mrun. by destruct (includes _ _).
Qed.

Lemma searchMatch_cases host lq book w :
  (∃ keep, searchMatch host lq book w = (w, Return keep))
  ∨ searchMatch host lq book w = (w, Throw TypeError).
Proof.
  unfold searchMatch, lowerIncludes. mrun.
  destruct (get book "title"); auto.
  destruct (includes _ _); [eauto|].
  destruct (get book "authors"); eauto.
Qed.

Lemma filterM_strings host lq (bs : list obj) w :
  (∀ b, b ∈ bs → isString (get b "title") ∧ isString (get b "authors")) →
  filterM (searchMatch host lq) bs w
  = (w, Return (List.filter (matchesQuery host lq) bs)).
Proof.
  induction bs as [|b bs IH]; intros Hall; [reflexivity|].
  destruct (Hall b) as [Ht Ha]; [apply list_elem_of_here|].
  simpl. unfold mbind, M_bind at 1. rewrite searchMatch_strings by done.
  unfold mbind, M_bind at 1. rewrite IH.
  - unfold mret, M_ret. by destruct (matchesQuery host lq b).
  - intros b' Hb'. apply Hall. by apply list_elem_of_further.
Qed.

Lemma filterM_throws host lq (bs : list obj) w b :
  b ∈ bs → searchMatch host lq b w = (w, Throw TypeError) →
  filterM (searchMatch host lq) bs w = (w, Throw TypeError).
Proof.
  induction bs as [|b0 bs IH]; intros Hin Hthrow.
  - by apply elem_of_nil in Hin.
  - simpl. unfold mbind, M_bind at 1.
    destruct (searchMatch_cases host lq b0 w) as [[keep Hk]|Hk]; rewrite Hk; [|done].
    apply elem_of_cons in Hin as [->|Hin]; [congruence|].
    unfold mbind, M_bind at 1. by rewrite IH.
Qed.

Lemma normalizeBook_copies book key f :
  f ∈ [ "title"; "authors" ] → get (normalizeBook book key) f = get book f.
Proof.
  intros Hin. unfold normalizeBook. rewrite !app_assoc, !literal_app_spreadIf.
  repeat (apply elem_of_cons in Hin as [->|Hin]); [..|by apply elem_of_nil in Hin];
    repeat case_match; unfold literal; simpl;
    repeat (rewrite get_insert_ne by done); apply get_insert_eq.
Qed.

Lemma prefix_length p s :
  String.prefix p s = true → (String.length p ≤ String.length s)%nat.
Proof.
  revert s. induction p as [|a p IH]; intros s H; simpl; [lia|].
  destruct s as [|b s]; simpl in *; [done|].
  destruct (Ascii.ascii_dec a b); [|done]. apply IH in H. lia.
Qed.

Lemma includes_length s needle :
  includes s needle = true → (String.length needle ≤ String.length s)%nat.
Proof.
  induction s as [|c s IH]; intros H.
  - destruct needle; simpl in *; [lia|done].
  - cbn [includes] in H.
    apply orb_true_iff in H as [H|H]; [by apply prefix_length in H|].
    apply IH in H. simpl. lia.
Qed.

Lemma length_string_of_list l :
  String.length (String.string_of_list_ascii l) = length l.
Proof. induction l; simpl; congruence. Qed.

Lemma exampleHost_longQueries : longQueries exampleHost.
Proof.
  intros n. exists (String.string_of_list_ascii (replicate (S n) "a"%char)).
  cbn [String_toLowerCase exampleHost]. unfold asciiToLowerCase.
  rewrite String.list_ascii_of_string_of_list_ascii.
  rewrite length_string_of_list, length_fmap, length_replicate. lia.
Qed.

Lemma searchBooks_throws_title host query w b :
  b ∈ books (library w) → ¬ isString (get b "title") →
  searchBooks host query w = (w, Throw TypeError).
Proof.
  intros Hin Hnot. unfold searchBooks. mrun.
  apply (filterM_throws host _ _ w b Hin).
  unfold searchMatch, lowerIncludes. mrun.
  destruct (get b "title") eqn:Ht; try done. exfalso. apply Hnot. by eexists.
Qed.

Lemma searchBooks_throws_authors host query w b :
  b ∈ books (library w) → ¬ isString (get b "authors") →
  containsQuery host (String_toLowerCase host query) (get b "title") = false →
  searchBooks host query w = (w, Throw TypeError).
Proof.
  intros Hin Hnot Hmiss. unfold searchBooks. mrun.
  apply (filterM_throws host _ _ w b Hin).
  unfold searchMatch, lowerIncludes. mrun. unfold containsQuery in Hmiss.
  destruct (get b "title") eqn:Ht; try done. rewrite Hmiss.
  destruct (get b "authors") eqn:Ha; try done. exfalso. apply Hnot. by eexists.
Qed.

(** C10.  When every record carries a string [title] and a string
    [authors], [searchBooks] returns, in collection order, exactly the
    records whose title or authors contains the query, both lower-cased,
    and changes nothing.  Otherwise it can throw instead of skipping the
    record: a record whose [title] is not a string makes every search
    throw, and a record whose [authors] is not a string makes every search
    throw whose query does not occur in that record's title, so that (the
    host lower-casing queries to strings of any length) some search throws
    as soon as one record lacks a string [title] or [authors].  Such
    records arise from [normalizeBook], which copies [title] and [authors]
    as they are, [undefined] included. *)
Theorem searchBooks_needs_strings (host : Host) (w : World) (query : string) :
  let lowercaseQuery := String_toLowerCase host query in
  ((∀ b, b ∈ books (library w) →
      isString (get b "title") ∧ isString (get b "authors")) →
   searchBooks host query w
   = (w, Return (List.filter (matchesQuery host lowercaseQuery) (books (library w)))))
  ∧ (∀ b, b ∈ books (library w) → ¬ isString (get b "title") →
     searchBooks host query w = (w, Throw TypeError))
  ∧ (∀ b, b ∈ books (library w) → ¬ isString (get b "authors") →
     containsQuery host lowercaseQuery (get b "title") = false →
     searchBooks host query w = (w, Throw TypeError))
  ∧ (longQueries host →
     ∀ b, b ∈ books (library w) →
       ¬ (isString (get b "title") ∧ isString (get b "authors")) →
       ∃ failing, searchBooks host failing w = (w, Throw TypeError))
  ∧ (∀ book key,
       get (normalizeBook book key) "title" = get book "title"
       ∧ get (normalizeBook book key) "authors" = get book "authors").
Proof.
  intros lq. split_and!.
  - intros Hall. unfold searchBooks. mrun. by apply filterM_strings.
  - intros b. apply searchBooks_throws_title.
  - intros b. apply searchBooks_throws_authors.
  - intros Hlong b Hin Hnot.
    destruct (decide (isString (get b "title"))) as [[t Ht]|Ht].
    + destruct (Hlong (String.length (String_toLowerCase host t))) as [q Hq].
      exists q. apply (searchBooks_throws_authors host q w b Hin).
      * intros Ha. apply Hnot. split; [by exists t|done].
      * rewrite Ht. simpl. apply not_true_is_false. intros Hinc.
        apply includes_length in Hinc. lia.
    + exists query. by apply (searchBooks_throws_title host query w b).
  - intros book key. split; apply normalizeBook_copies.
    + apply list_elem_of_here.
    + apply list_elem_of_further, list_elem_of_here.
Qed.

Lemma searchBooks_needs_strings_witness :
  searchBooks exampleHost "t" worldA = (worldA, Return [recordA])
  ∧ searchBooks exampleHost "X" untitledWorld = (untitledWorld, Throw TypeError).
Proof.
  split.
  - destruct (searchBooks_needs_strings exampleHost worldA "t") as (H & _).
    rewrite H; [vm_compute; reflexivity|].
    intros b Hb. apply list_elem_of_singleton in Hb as ->.
    split; eexists; vm_compute; reflexivity.
  - destruct (searchBooks_needs_strings exampleHost untitledWorld "X")
      as (_ & _ & H & _ & _).
    apply (H (normalizeBook (literal [ ("bookId", VStr "B");
                                       ("title", VStr "Rocq") ]) VNull)).
    + apply list_elem_of_further, list_elem_of_here.
    + intros [s Hs]. vm_compute in Hs. discriminate.
    + vm_compute. reflexivity.
Defined.

(** ** The batch loops on record candidates *)

Lemma propOr_record (k : obj) k1 k2 w :
  propOr (RObj k) k1 k2 w = (w, Return (jsOr (get k k1) (get k k2))).
Proof. unfold propOr, prop, jsOr. mrun. by destruct (truthy (get k k1)). Qed.

Lemma selectedStep_record host existing (k : obj) acc w :
  selectedStep host existing (RObj k) acc w =
  if bool_decide (candidateId k ∈ existing) then
    (w, Return {| imported := imported acc;
                  duplicates := duplicates acc ++
                    [{| entryTitle := get k "title"; entryBookId := candidateId k;
                        reason := "既に存在" |}];
                  errors := errors acc |})
  else
    (pushBook (importedRecord k (Date_now host (ticks w))) w,
     Return {| imported := imported acc ++ [importedRecord k (Date_now host (ticks w))];
               duplicates := duplicates acc;
               errors := errors acc |}).
Proof.
  unfold selectedStep, tryCatch. unfold mbind at 1, M_bind at 1.
  rewrite propOr_record. fold (candidateId k).
  destruct (bool_decide (candidateId k ∈ existing)); reflexivity.
Qed.

Lemma selectedStep_null host existing acc w :
  selectedStep host existing RNull acc w = (w, Throw TypeError).
Proof. reflexivity. Qed.

Lemma kindleStep_record host (k : obj) r w :
  kindleStep host (RObj k) r w =
  match findBook (candidateId k) (books (library w)) with
  | Some (i, existingBook) =>
    if shouldUpdateBook existingBook k then
      (withBooks (<[i := updatedRecord existingBook k]> (books (library w))) w,
       Return {| total := total r; added := added r;
                 updated := S (updated r); skipped := skipped r |})
    else
      (w, Return {| total := total r; added := added r;
                    updated := updated r; skipped := S (skipped r) |})
  | None =>
    (pushBook (importedRecord k (Date_now host (ticks w))) w,
     Return {| total := total r; added := S (added r);
               updated := updated r; skipped := skipped r |})
  end.
Proof.
  unfold kindleStep. mrun. fold (candidateId k).
  destruct (findBook _ _) as [[i b]|]; [|reflexivity].
  destruct (shouldUpdateBook b k); reflexivity.
Qed.

Lemma selectedLoop_records host existing (batch : list obj) acc w :
  ∃ w' acc',
    selectedLoop host existing (RObj <$> batch) acc w = (w', Return acc')
    ∧ errors acc' = errors acc
    ∧ (length (imported acc') + length (duplicates acc')
       = length (imported acc) + length (duplicates acc) + length batch)%nat.
Proof.
  revert acc w. induction batch as [|k batch IH]; intros acc w.
  - exists w, acc. split; [reflexivity|]. split; [reflexivity|simpl; lia].
  - rewrite fmap_cons. cbn [selectedLoop].
    unfold mbind at 1, M_bind at 1. rewrite selectedStep_record.
    destruct (bool_decide _); cbv beta iota;
      match goal with
      | |- context [selectedLoop _ _ _ ?a ?v] =>
          destruct (IH a v) as (w' & acc' & -> & He & Hl)
      end;
      exists w', acc'; (split; [reflexivity|]); (split; [exact He|]);
      simpl in Hl |- *; rewrite ?length_app in Hl; simpl in Hl; lia.
Qed.

Lemma kindleLoop_records host (batch : list obj) r w :
  ∃ w' r',
    kindleLoop host (RObj <$> batch) r w = (w', Return r')
    ∧ total r' = total r
    ∧ (added r' + updated r' + skipped r'
       = added r + updated r + skipped r + length batch)%nat.
Proof.
  revert r w. induction batch as [|k batch IH]; intros r w.
  - exists w, r. split; [reflexivity|]. split; [reflexivity|simpl; lia].
  - rewrite fmap_cons. cbn [kindleLoop].
    unfold mbind at 1, M_bind at 1. rewrite kindleStep_record.
    destruct (findBook _ _) as [[i b]|]; [destruct (shouldUpdateBook b k)|];
      cbv beta iota;
      match goal with
      | |- context [kindleLoop _ _ ?a ?v] =>
          destruct (IH a v) as (w' & r' & -> & Ht & Hl)
      end;
      exists w', r'; (split; [reflexivity|]); (split; [exact Ht|]);
      simpl in Hl |- *; lia.
Qed.


(** ** Failures inside a batch *)



(** A candidate without any identifier is inserted, not reported. *)
Example importSelectedBooks_without_identifier :
  ∃ w' r book,
    importSelectedBooks exampleHost [RObj (literal [ ("title", VStr "T") ])] initialWorld
    = (w', Return r)
    ∧ errors (lists r) = []
    ∧ books (library w') = [book]
    ∧ get book "bookId" = VUndef.
Proof.
  eexists _, _, _. split; [vm_compute; reflexivity|].
  split_and!; vm_compute; reflexivity.
Qed.

(** ** importFromKindle twice *)

Lemma shouldUpdateBook_false existingBook k :
  shouldUpdateBook existingBook k = false ↔ compared existingBook = compared k.
Proof.
  unfold shouldUpdateBook, compared, strictEq. split.
  - intros H. repeat (apply orb_false_elim in H as [H ?]).
    repeat match goal with
           | H : negb (bool_decide _) = false |- _ =>
               apply negb_false_iff, bool_decide_eq_true in H
           end.
    congruence.
  - intros [= -> -> -> ->]. by rewrite !bool_decide_eq_true_2.
Qed.

Lemma updatedRecord_bookId existingBook k :
  get (updatedRecord existingBook k) "bookId" = get existingBook "bookId".
Proof.
  unfold get, updatedRecord. rewrite assign_lookup_other; [done|].
  simpl. intros Hin. by repeat (apply elem_of_cons in Hin as [?|Hin]; [done|]);
    apply elem_of_nil in Hin.
Qed.

Lemma updatedRecord_compared existingBook k :
  compared (updatedRecord existingBook k) = compared k.
Proof.
  unfold compared, updatedRecord, assign. simpl.
  repeat match goal with |- (_, _) = (_, _) => f_equal end;
    repeat (rewrite get_insert_ne by done); apply get_insert_eq.
Qed.

Lemma importedRecord_bookId k now :
  get (importedRecord k now) "bookId" = candidateId k.
Proof.
  unfold importedRecord, assign. simpl.
  rewrite !get_insert_ne by done. rewrite normalizeBook_bookId.
  fold (candidateId k). apply jsOr_idem.
Qed.

Lemma normalizeBook_compared k key : compared (normalizeBook k key) = compared k.
Proof.
  unfold compared, normalizeBook. rewrite !app_assoc, !literal_app_spreadIf.
  repeat case_match; unfold literal; simpl;
    repeat match goal with |- (_, _) = (_, _) => f_equal end;
    repeat (rewrite get_insert_ne by done); apply get_insert_eq.
Qed.

Lemma importedRecord_compared k now : compared (importedRecord k now) = compared k.
Proof.
  rewrite <- (normalizeBook_compared k (candidateId k)).
  unfold compared, importedRecord, assign. simpl.
  by rewrite !get_insert_ne by done.
Qed.

(** Replacing a record by one with the same identifier does not change
    which position a lookup finds. *)
Lemma findBook_insert (bs : list obj) i b b' bookId j x :
  bs !! i = Some b → get b' "bookId" = get b "bookId" →
  findBook bookId bs = Some (j, x) →
  findBook bookId (<[i := b']> bs) = Some (j, if decide (j = i) then b' else x).
Proof.
  intros Hi Hid Hf. unfold findBook in *.
  apply list_find_Some in Hf as (Hj & HP & Hmin).
  apply list_find_Some. split_and!.
  - destruct (decide (j = i)) as [->|Hne].
    + apply list_lookup_insert_eq. by eapply lookup_lt_Some.
    + by rewrite list_lookup_insert_ne.
  - destruct (decide (j = i)) as [->|Hne]; [|done]. congruence.
  - intros j' y Hy Hlt. destruct (decide (j' = i)) as [->|Hne].
    + rewrite list_lookup_insert_eq in Hy by (by eapply lookup_lt_Some).
      injection Hy as <-. rewrite Hid. by apply (Hmin i b).
    + rewrite list_lookup_insert_ne in Hy by done. by apply (Hmin j' y).
Qed.

Lemma findBook_snoc_new (bs : list obj) b bookId :
  findBook bookId bs = None → get b "bookId" = bookId →
  findBook bookId (bs ++ [b]) = Some (length bs, b).
Proof.
  intros Hn Hb. unfold findBook in *. rewrite list_find_app_r by done.
  simpl. by rewrite decide_True.
Qed.

(** One iteration on a record candidate returns, leaves the candidate in
    sync, and keeps in sync every candidate that agrees with it. *)
Lemma kindleStep_sync host (k : obj) r w :
  ∃ w' r',
    kindleStep host (RObj k) r w = (w', Return r')
    ∧ inSync (books (library w')) k
    ∧ (∀ k0, inSync (books (library w)) k0 →
         (candidateId k0 = candidateId k → compared k0 = compared k) →
         inSync (books (library w')) k0).
Proof.
  rewrite kindleStep_record.
  destruct (findBook (candidateId k) (books (library w))) as [[i b]|] eqn:Hf;
    [destruct (shouldUpdateBook b k) eqn:Hs|].
  - eexists _, _. split; [reflexivity|]. simpl.
    pose proof Hf as Hf'. apply list_find_Some in Hf' as (Hi & Hb & _).
    split.
    + exists i, (updatedRecord b k). split; [|apply updatedRecord_compared].
      rewrite (findBook_insert _ i b _ _ i b Hi (updatedRecord_bookId b k) Hf).
      by rewrite decide_True.
    + intros k0 (i0 & b0 & Hf0 & Hc0) Hagree.
      eexists i0, _. split.
      * apply (findBook_insert _ i b _ _ i0 b0 Hi (updatedRecord_bookId b k) Hf0).
      * destruct (decide (i0 = i)) as [->|Hne]; [|done].
        apply list_find_Some in Hf0 as (Hi0 & Hb0 & _).
        rewrite updatedRecord_compared. symmetry. apply Hagree. congruence.
  - eexists _, _. split; [reflexivity|]. split; [|done].
    exists i, b. split; [done|]. by apply shouldUpdateBook_false.
  - eexists _, _. split; [reflexivity|]. simpl. split.
    + eexists _, _. split; [|apply importedRecord_compared].
      apply findBook_snoc_new; [done|apply importedRecord_bookId].
    + intros k0 (i0 & b0 & Hf0 & Hc0) _. exists i0, b0. split; [|done].
      by apply list_find_app_l.
Qed.

Lemma kindleLoop_sync host (batch done : list obj) r w :
  (∀ k0, k0 ∈ done → inSync (books (library w)) k0) →
  (∀ k0 k, k0 ∈ done ++ batch → k ∈ batch →
     candidateId k0 = candidateId k → compared k0 = compared k) →
  ∃ w' r',
    kindleLoop host (RObj <$> batch) r w = (w', Return r')
    ∧ ∀ k, k ∈ done ++ batch → inSync (books (library w')) k.
Proof.
  revert done r w. induction batch as [|k batch IH]; intros done r w Hdone Hag.
  - exists w, r. split; [reflexivity|]. rewrite app_nil_r. exact Hdone.
  - rewrite fmap_cons. cbn [kindleLoop]. unfold mbind at 1, M_bind at 1.
    destruct (kindleStep_sync host k r w) as (w1 & r1 & -> & Hk & Hkeep).
    destruct (IH (done ++ [k]) r1 w1) as (w' & r' & Hrun & Hall).
    + intros k0 Hin. apply elem_of_app in Hin as [Hin|Hin].
      * apply Hkeep; [by apply Hdone|].
        apply Hag; [apply elem_of_app; by left|apply list_elem_of_here].
      * by apply list_elem_of_singleton in Hin as ->.
    + intros k0 k' Hin Hin'. rewrite <- app_assoc in Hin.
      apply Hag; [exact Hin|by apply list_elem_of_further].
    + exists w', r'. split; [exact Hrun|].
      intros k' Hin. apply Hall. by rewrite <- app_assoc.
Qed.

(** On a collection with which the whole batch is in sync, the loop skips
    every candidate and changes nothing. *)
Lemma kindleLoop_skips host (batch : list obj) r w :
  (∀ k, k ∈ batch → inSync (books (library w)) k) →
  kindleLoop host (RObj <$> batch) r w
  = (w, Return {| total := total r; added := added r; updated := updated r;
                  skipped := skipped r + length batch |}).
Proof.
  revert r. induction batch as [|k batch IH]; intros r Hall.
  - simpl. rewrite Nat.add_0_r. by destruct r.
  - rewrite fmap_cons. cbn [kindleLoop]. unfold mbind at 1, M_bind at 1.
    rewrite kindleStep_record.
    destruct (Hall k) as (i & b & -> & Hc); [apply list_elem_of_here|].
    apply shouldUpdateBook_false in Hc as ->.
    rewrite IH by (intros k' Hin; by apply Hall, list_elem_of_further).
    simpl. do 3 f_equal. lia.
Qed.

(** C4 (as stated, refuted).  A batch that names one identifier twice with
    different titles: the first run inserts and then updates the record,
    and the second run, on the unchanged batch, updates it twice more. *)
Lemma importFromKindle_second_run_updates :
  ∃ w1 r1 w2 r2,
    importFromKindle exampleHost [RObj candidateA; RObj candidateA'] initialWorld
    = (w1, Return r1)
    ∧ importFromKindle exampleHost [RObj candidateA; RObj candidateA'] w1
      = (w2, Return r2)
    ∧ updated r2 = 2%nat
    ∧ skipped r2 = 0%nat.
Proof.
  eexists _, _, _, _. split; [vm_compute; reflexivity|].
  split; [vm_compute; reflexivity|]. split; reflexivity.
Qed.

(** C4 (amended).  For every batch of record candidates in which the
    candidates that resolve to the same identifier agree on [acquiredTime],
    [readStatus], [title] and [productImage] — in particular for every
    batch whose identifiers are pairwise distinct — and from every
    collection, [importFromKindle] returns, and running it again on the
    same batch returns [added = 0], [updated = 0] and [skipped] equal to
    the number of candidates, with the records unchanged by the second
    run. *)
Theorem importFromKindle_twice (host : Host) (batch : list obj) (w : World) :
  batchAgrees batch →
  ∃ w1 r1 w2,
    importFromKindle host (RObj <$> batch) w = (w1, Return r1)
    ∧ importFromKindle host (RObj <$> batch) w1
      = (w2, Return {| total := length batch; added := 0; updated := 0;
                       skipped := length batch |})
    ∧ books (library w2) = books (library w1).
Proof.
  intros Hag.
  destruct (kindleLoop_sync host batch [] 
              {| total := length (RObj <$> batch); added := 0; updated := 0;
                 skipped := 0 |} w) as (wl & rl & Hrun & Hall).
  { intros k0 Hin. by apply elem_of_nil in Hin. }
  { intros k0 k Hin Hin'. by apply Hag. }
  simpl in Hall.
  eexists _, rl, _. split_and!.
  - unfold importFromKindle. unfold mbind at 1, M_bind at 1. rewrite Hrun.
    mrun. reflexivity.
  - unfold importFromKindle. unfold mbind at 1, M_bind at 1.
    rewrite kindleLoop_skips by exact Hall.
    mrun. by rewrite length_fmap.
  - reflexivity.
Qed.

Lemma batchAgrees_distinct (batch : list obj) :
  NoDup (candidateId <$> batch) → batchAgrees batch.
Proof.
  intros Hnd k1 k2 Hin1 Hin2 Hid.
  apply list_elem_of_lookup in Hin1 as [i1 H1].
  apply list_elem_of_lookup in Hin2 as [i2 H2].
  assert (i1 = i2) as ->; [|congruence].
  eapply (NoDup_lookup _ _ _ _ Hnd); rewrite list_lookup_fmap.
  - by rewrite H1.
  - rewrite H2. simpl. by rewrite Hid.
Qed.

Lemma importFromKindle_twice_witness :
  ∃ w1 r1 w2,
    importFromKindle exampleHost [RObj candidateA] worldA = (w1, Return r1)
    ∧ importFromKindle exampleHost [RObj candidateA] w1
      = (w2, Return {| total := 1; added := 0; updated := 0; skipped := 1 |})
    ∧ books (library w2) = books (library w1).
Proof.
  apply (importFromKindle_twice exampleHost [candidateA] worldA).
  apply batchAgrees_distinct. vm_compute.
  apply NoDup_cons. split; [apply not_elem_of_nil|apply NoDup_nil_2].
Defined.

(** ** What each method leaves in the library *)

(** The library after [addBookManually]: untouched when the method throws,
    else extended by one record under an identifier that was not present,
    with [totalBooks] and [manuallyAdded] recomputed.  A property of
    libraries that holds in both cases holds after the call. *)
Lemma addBookManually_library host (bookData : raw) w (P : Library → Prop) :
  P (library w) →
  (∀ d newBook,
     bookData = RObj d →
     findBook (get newBook "bookId") (books (library w)) = None →
     get newBook "source" = jsOr (get d "source") (VStr "manual_add") →
     P {| books := books (library w) ++ [newBook];
          metadata :=
            {| lastImportDate := lastImportDate (metadata (library w));
               totalBooks := length (books (library w) ++ [newBook]);
               manuallyAdded :=
                 countSource "manual_add" (books (library w) ++ [newBook]);
               importedFromKindle :=
                 importedFromKindle (metadata (library w)) |} |}) →
  P (library (after (addBookManually host bookData) w)).
Proof.
  intros Hsame Hadd.
  destruct bookData as [|d]; [exact Hsame|].
  unfold after, addBookManually. unfold mbind at 1, M_bind at 1.
  rewrite propOr_record. fold (candidateId d).
  unfold isValidBookId.
  destruct (truthy (candidateId d)) eqn:Htr; [|exact Hsame].
  destruct (candidateId d) as [| |b|n|s] eqn:Hid; try exact Hsame.
  mrun.
  destruct (0 <? String.length (String_trim host s))%nat; [|exact Hsame]. simpl.
  destruct (bool_decide (is_Some (findBook (VStr s) (books (library w))))) eqn:Hdup;
    [exact Hsame|].
  apply bool_decide_eq_false in Hdup. apply eq_None_not_Some in Hdup.
  destruct (truthy (get d "acquiredTime")); simpl;
    (apply (Hadd d); [reflexivity| |]);
    unfold literal; simpl; rewrite ?get_insert_eq; try done;
    repeat (rewrite get_insert_ne by done); by rewrite get_insert_eq.
Qed.

Lemma after_bind {A B} (m : M A) (f : A → M B) w w1 a :
  m w = (w1, Return a) → after (m ≫= f) w = after (f a) w1.
Proof. intros H. unfold after, mbind, M_bind. by rewrite H. Qed.

(** [fetchBookDataFromAmazon] always returns a record, without a [source],
    and only reads the clock. *)
Lemma fetchBookDataFromAmazon_returns host asin isbnReply generalReply w :
  ∃ w1 bookData,
    fetchBookDataFromAmazon host asin isbnReply generalReply w = (w1, Return bookData)
    ∧ library w1 = library w
    ∧ get bookData "source" = VUndef.
Proof.
  unfold fetchBookDataFromAmazon, fetchFromGoogleBooks, searchedBook,
    generateSmartBookData.
  destruct isbnReply as [|[|book1 items1]];
    [|destruct generalReply as [|[|book2 items2]]|]; mrun;
    repeat case_match; simplify_eq; eexists _, _;
    (split; [reflexivity|]); (split; [reflexivity|]); reflexivity.
Qed.

Lemma addBookFromAmazonUrl_library host url isbnReply generalReply w
    (P : Library → Prop) :
  P (library w) →
  (∀ newBook,
     findBook (get newBook "bookId") (books (library w)) = None →
     get newBook "source" = VStr "manual_add" →
     P {| books := books (library w) ++ [newBook];
          metadata :=
            {| lastImportDate := lastImportDate (metadata (library w));
               totalBooks := length (books (library w) ++ [newBook]);
               manuallyAdded :=
                 countSource "manual_add" (books (library w) ++ [newBook]);
               importedFromKindle :=
                 importedFromKindle (metadata (library w)) |} |}) →
  P (library (after (addBookFromAmazonUrl host url isbnReply generalReply) w)).
Proof.
  intros Hsame Hadd. unfold addBookFromAmazonUrl.
  destruct (extractASINFromUrl host url) as [asin|]; [|exact Hsame].
  destruct (bool_decide (asin = "")); [exact Hsame|].
  destruct (fetchBookDataFromAmazon_returns host asin isbnReply generalReply w)
    as (w1 & bookData & Hrun & Hlib & Hsrc).
  rewrite (after_bind _ _ _ _ _ Hrun).
  apply addBookManually_library; rewrite Hlib; [exact Hsame|].
  intros d newBook [= <-] Hnew Hsource. apply Hadd; [exact Hnew|].
  by rewrite Hsource, Hsrc.
Qed.

Lemma addBookFromGoogleBooks_library host urlOrId reply w (P : Library → Prop) :
  P (library w) →
  (∀ newBook,
     findBook (get newBook "bookId") (books (library w)) = None →
     get newBook "source" = VStr "google_books" →
     P {| books := books (library w) ++ [newBook];
          metadata :=
            {| lastImportDate := lastImportDate (metadata (library w));
               totalBooks := length (books (library w) ++ [newBook]);
               manuallyAdded := manuallyAdded (metadata (library w));
               importedFromKindle :=
                 importedFromKindle (metadata (library w)) |} |}) →
  P (library (after (addBookFromGoogleBooks host urlOrId reply) w)).
Proof.
  intros Hsame Hadd. unfold after, addBookFromGoogleBooks.
  unfold mbind at 1, M_bind at 1.
  assert (∀ volumeId,
    P (library
      ((bs ← getBooks;
        if bool_decide (is_Some (findBook (VStr volumeId) bs))
        then throw (Error "この本は既に蔵書に追加されています")
        else
          bookData ← fetchFromGoogleBooksById host volumeId reply;
          setBooks (bs ++ [bookData]);;
          md ← getMetadata;
          setMetadata {| lastImportDate := lastImportDate md;
                         totalBooks := length (bs ++ [bookData]);
                         manuallyAdded := manuallyAdded md;
                         importedFromKindle := importedFromKindle md |};;
          saveLibrary;; mret bookData) w).1)) as Hrest.
  { intros volumeId. mrun.
    destruct (bool_decide (is_Some (findBook (VStr volumeId) (books (library w)))))
      eqn:Hdup; [exact Hsame|].
    apply bool_decide_eq_false in Hdup. apply eq_None_not_Some in Hdup.
    unfold fetchFromGoogleBooksById.
    destruct reply as [| |[info|]]; try exact Hsame. mrun.
    apply Hadd; unfold literal; simpl; rewrite ?get_insert_eq; try done;
      repeat (rewrite get_insert_ne by done); by rewrite get_insert_eq. }
  destruct (includes urlOrId "google.com" || includes urlOrId "play.google.com").
  - destruct (extractVolumeIdFromGoogleUrl host urlOrId) as [v|]; [|exact Hsame].
    destruct (bool_decide (v = "")); [exact Hsame|]. apply Hrest.
  - apply Hrest.
Qed.

(** ** Identifiers and counters of a record sequence *)

Lemma findBook_None_ids bookId (bs : list obj) :
  findBook bookId bs = None ↔ bookId ∉ bookIds bs.
Proof.
  unfold findBook, bookIds. rewrite list_find_None, Forall_forall. split.
  - intros H Hin. apply list_elem_of_fmap in Hin as (b & -> & Hb). by apply (H b).
  - intros H b Hb Heq. apply H. apply list_elem_of_fmap. by exists b.
Qed.

Lemma bookIds_insert (bs : list obj) i b b' :
  bs !! i = Some b → get b' "bookId" = get b "bookId" →
  bookIds (<[i := b']> bs) = bookIds bs.
Proof.
  intros Hi Hid. unfold bookIds. rewrite list_fmap_insert, Hid.
  apply list_insert_id. by rewrite list_lookup_fmap, Hi.
Qed.

Lemma bookIds_snoc (bs : list obj) b : bookIds (bs ++ [b]) = bookIds bs ++ [get b "bookId"].
Proof. unfold bookIds. by rewrite fmap_app. Qed.

Lemma NoDup_snoc_new (ids : list value) id : NoDup ids → id ∉ ids → NoDup (ids ++ [id]).
Proof.
  intros Hnd Hnew. apply NoDup_app. split_and!; [done| |apply NoDup_singleton].
  intros x Hx Hx'. apply list_elem_of_singleton in Hx' as ->. done.
Qed.

Lemma countSource_snoc s (bs : list obj) b :
  countSource s (bs ++ [b])
  = (countSource s bs + if decide (get b "source" = VStr s) then 1 else 0)%nat.
Proof.
  unfold countSource. rewrite filter_app, length_app. f_equal.
  rewrite filter_cons, filter_nil. by case_decide.
Qed.

Lemma countSource_insert s (bs : list obj) i b b' :
  bs !! i = Some b → get b' "source" = get b "source" →
  countSource s (<[i := b']> bs) = countSource s bs.
Proof.
  unfold countSource. revert i. induction bs as [|b0 bs IH]; intros i Hi Hs; [done|].
  destruct i as [|i]; simpl in *.
  - injection Hi as ->. rewrite !filter_cons, Hs. by case_decide.
  - rewrite !filter_cons. case_decide; simpl; by rewrite (IH i).
Qed.

Lemma updatedRecord_source existingBook k :
  get (updatedRecord existingBook k) "source" = get existingBook "source".
Proof.
  unfold get, updatedRecord. rewrite assign_lookup_other; [done|].
  simpl. intros Hin. by repeat (apply elem_of_cons in Hin as [?|Hin]; [done|]);
    apply elem_of_nil in Hin.
Qed.

Lemma importedRecord_source k now :
  get (importedRecord k now) "source" = VStr "kindle_import".
Proof.
  unfold importedRecord, assign. simpl.
  rewrite get_insert_ne by done. apply get_insert_eq.
Qed.

(** ** Invariants of the merge-with-update loop *)

(** A property of the record sequence that survives an in-place update of
    the record found for a candidate and the insertion of a candidate whose
    identifier is not found, survives the loop, however it ends; the loop
    touches neither the metadata nor the persisted snapshots. *)
Lemma kindleLoop_invariant host (I : list obj → Prop) :
  (∀ bs k i b, I bs → findBook (candidateId k) bs = Some (i, b) →
     I (<[i := updatedRecord b k]> bs)) →
  (∀ bs k now, I bs → findBook (candidateId k) bs = None →
     I (bs ++ [importedRecord k now])) →
  ∀ kindleBooks r w,
    I (books (library w)) →
    I (books (library (kindleLoop host kindleBooks r w).1))
    ∧ metadata (library (kindleLoop host kindleBooks r w).1) = metadata (library w)
    ∧ storage (kindleLoop host kindleBooks r w).1 = storage w.
Proof.
  intros Hupd Hadd kindleBooks.
  induction kindleBooks as [|kb rest IH]; intros r w HI; [done|].
  cbn [kindleLoop]. unfold mbind at 1 2 3, M_bind at 1 2 3.
  destruct kb as [|k]; [done|].
  rewrite kindleStep_record.
  destruct (findBook (candidateId k) (books (library w))) as [[i b]|] eqn:Hf;
    [destruct (shouldUpdateBook b k)|].
  - match goal with
    | |- context [kindleLoop _ _ ?a ?v] => destruct (IH a v) as (H1 & H2 & H3)
    end; [by eapply Hupd|done].
  - by apply IH.
  - match goal with
    | |- context [kindleLoop _ _ ?a ?v] => destruct (IH a v) as (H1 & H2 & H3)
    end; [by apply Hadd|done].
Qed.

Lemma importFromKindle_books host kindleBooks w :
  books (library (after (importFromKindle host kindleBooks) w))
  = books (library (kindleLoop host kindleBooks
                      {| total := length kindleBooks; added := 0; updated := 0;
                         skipped := 0 |} w).1).
Proof.
  unfold after, importFromKindle. unfold mbind at 1, M_bind at 1.
  by destruct (kindleLoop _ _ _ _) as [w1 [r1|e]].
Qed.

Lemma updateBook_library bookId updates w (P : Library → Prop) :
  P (library w) →
  (∀ i book,
     findBook bookId (books (library w)) = Some (i, book) →
     let bs' := <[i := foldl applyUpdate book (map_to_list updates)]>
                  (books (library w)) in
     P {| books := bs';
          metadata :=
            {| lastImportDate := lastImportDate (metadata (library w));
               totalBooks := length bs';
               manuallyAdded := countSource "manual_add" bs';
               importedFromKindle := countSource "kindle_import" bs' |} |}) →
  P (library (after (updateBook bookId updates) w)).
Proof.
  intros Hsame Hupd. unfold updateBook. mrun.
  destruct (findBook bookId (books (library w))) as [[i book]|] eqn:Hf;
    [|exact Hsame].
  simpl. by apply Hupd.
Qed.

Lemma deleteBook_library bookId hardDelete w (P : Library → Prop) :
  P (library w) →
  (∀ i book,
     findBook bookId (books (library w)) = Some (i, book) →
     let bs' := delete i (books (library w)) in
     P {| books := bs';
          metadata :=
            {| lastImportDate := lastImportDate (metadata (library w));
               totalBooks := length bs';
               manuallyAdded := countSource "manual_add" bs';
               importedFromKindle := countSource "kindle_import" bs' |} |}) →
  P (library (after (deleteBook bookId hardDelete) w)).
Proof.
  intros Hsame Hdel. unfold deleteBook. mrun.
  destruct (findBook bookId (books (library w))) as [[i book]|] eqn:Hf;
    [|exact Hsame].
  destruct hardDelete; simpl; [by eapply Hdel|exact Hsame].
Qed.

Lemma clearAllBooks_library w : library (after clearAllBooks w) = emptyLibrary.
Proof. reflexivity. Qed.

(** ** Uniqueness of identifiers *)

Lemma selectedLoop_unique host existing (batch : list raw) acc w :
  NoDup (bookIds (books (library w))) →
  NoDup (rawIds batch) →
  (∀ id, id ∈ rawIds batch → id ∉ existing → id ∉ bookIds (books (library w))) →
  NoDup (bookIds (books (library (selectedLoop host existing batch acc w).1))).
Proof.
  revert acc w. induction batch as [|[|k] batch IH]; intros acc w Hnd Hbatch Hfresh;
    [done|done|].
  cbn [selectedLoop]. unfold mbind at 1, M_bind at 1. rewrite selectedStep_record.
  unfold rawIds in *. simpl in Hbatch, Hfresh.
  apply NoDup_cons in Hbatch as [Hk Hbatch].
  destruct (bool_decide (candidateId k ∈ existing)) eqn:Hex.
  - apply IH; [done|done|]. intros id Hin. apply Hfresh. by apply list_elem_of_further.
  - apply bool_decide_eq_false in Hex.
    apply IH; simpl; rewrite ?bookIds_snoc, ?importedRecord_bookId.
    + apply NoDup_snoc_new; [done|]. apply Hfresh; [apply list_elem_of_here|done].
    + done.
    + intros id Hin Hnot Hid. apply elem_of_app in Hid as [Hid|Hid].
      * revert Hid. apply Hfresh; [by apply list_elem_of_further|done].
      * apply list_elem_of_singleton in Hid as ->. done.
Qed.

Lemma importSelectedBooks_books host selectedBooks w :
  books (library (after (importSelectedBooks host selectedBooks) w))
  = books (library
      (selectedLoop host (list_to_set (bookIds (books (library w)))) selectedBooks
         {| imported := []; duplicates := []; errors := [] |} w).1).
Proof.
  unfold after, importSelectedBooks. unfold mbind at 1, M_bind at 1, getBooks at 1.
  unfold mbind at 1, M_bind at 1. fold (bookIds (books (library w))).
  by destruct (selectedLoop _ _ _ _ _) as [w1 [r1|e]].
Qed.

Lemma perform_distinctIds host op w :
  distinctIds w → keepsIdsDistinct op → distinctIds (perform host op w).
Proof.
  unfold distinctIds. intros Hnd Hop. destruct op; simpl in *.
  - rewrite importFromKindle_books.
    apply (kindleLoop_invariant host (λ bs, NoDup (bookIds bs))); [| |done].
    + intros bs k i b Hbs Hf. apply list_find_Some in Hf as (Hi & _ & _).
      by rewrite (bookIds_insert bs i b _ Hi (updatedRecord_bookId b k)).
    + intros bs k now Hbs Hf. rewrite bookIds_snoc, importedRecord_bookId.
      apply NoDup_snoc_new; [done|]. by apply findBook_None_ids.
  - rewrite importSelectedBooks_books.
    apply selectedLoop_unique; [done|done|].
    intros id _ Hnot Hin. apply Hnot. by apply elem_of_list_to_set.
  - apply (addBookManually_library host bookData w
             (λ l, NoDup (bookIds (books l)))); [done|].
    intros d newBook _ Hnew _. simpl. rewrite bookIds_snoc.
    apply NoDup_snoc_new; [done|]. by apply findBook_None_ids.
  - apply (addBookFromAmazonUrl_library host url isbnReply generalReply w
             (λ l, NoDup (bookIds (books l)))); [done|].
    intros newBook Hnew _. simpl. rewrite bookIds_snoc.
    apply NoDup_snoc_new; [done|]. by apply findBook_None_ids.
  - apply (addBookFromGoogleBooks_library host urlOrId reply w
             (λ l, NoDup (bookIds (books l)))); [done|].
    intros newBook Hnew _. simpl. rewrite bookIds_snoc.
    apply NoDup_snoc_new; [done|]. by apply findBook_None_ids.
  - apply (updateBook_library bookId updates w
             (λ l, NoDup (bookIds (books l)))); [done|].
    intros i book Hf bs'. simpl. subst bs'.
    apply list_find_Some in Hf as (Hi & _ & _).
    rewrite (bookIds_insert _ i book _ Hi); [done|].
    unfold get. by rewrite updated_record_lookup, Hop.
  - apply (deleteBook_library bookId hardDelete w
             (λ l, NoDup (bookIds (books l)))); [done|].
    intros i book Hf bs'. simpl. subst bs'. unfold bookIds.
    rewrite list_fmap_delete. eapply sublist_NoDup; [exact Hnd|apply sublist_delete].
  - apply NoDup_nil_2.
Qed.

(** C1 (as stated, refuted).  Two manual adds followed by an update that
    renames the second record to the identifier of the first leave two
    records with the same [bookId]. *)
Lemma updateBook_can_duplicate_ids :
  bookIds (books (library
    (performAll exampleHost
       [ AddBookManually (RObj (literal [ ("bookId", VStr "A") ]));
         AddBookManually (RObj (literal [ ("bookId", VStr "B") ]));
         UpdateBook (VStr "B") (literal [ ("bookId", VStr "A") ]) ]
       initialWorld)))
  = [VStr "A"; VStr "A"].
Proof. vm_compute. reflexivity. Qed.

(** C1 (amended).  For every sequence of operations starting from the empty
    collection — bulk imports in either mode, single adds by manual entry,
    marketplace link or catalog lookup, updates, deletes, clear-all — in
    which no update names the property [bookId] and no insert-only batch
    carries the same identifier twice, no two records of the collection
    share a [bookId]. *)
Theorem bookIds_stay_distinct (host : Host) (ops : list operation) :
  Forall keepsIdsDistinct ops →
  NoDup (bookIds (books (library (performAll host ops initialWorld)))).
Proof.
  intros Hops. change (distinctIds (performAll host ops initialWorld)).
  assert (distinctIds initialWorld) as Hinit by apply NoDup_nil_2.
  revert Hinit. generalize initialWorld. unfold performAll.
  induction Hops as [|op ops Hop Hops IH]; intros w Hw; [done|].
  simpl. apply IH. by apply perform_distinctIds.
Qed.

Lemma bookIds_stay_distinct_witness :
  NoDup (bookIds (books (library
    (performAll exampleHost
       [ ImportSelectedBooks [RObj candidateA];
         ImportFromKindle [RObj candidateA; RObj candidateA'];
         AddBookManually (RObj (literal [ ("bookId", VStr "B") ]));
         UpdateBook (VStr "B") (literal [ ("title", VStr "T") ]);
         DeleteBook (VStr "A") true ]
       initialWorld)))).
Proof.
  apply bookIds_stay_distinct.
  repeat apply Forall_cons_2; try apply Forall_nil_2; simpl; try done.
  vm_compute. apply NoDup_cons. split; [apply not_elem_of_nil|apply NoDup_nil_2].
Defined.

(** ** Consistency of the counters *)

Lemma records_of_batch (batch : list raw) :
  RNull ∉ batch → ∃ objs : list obj, batch = RObj <$> objs.
Proof.
  induction batch as [|[|k] batch IH]; intros Hnull.
  - by exists [].
  - destruct Hnull. apply list_elem_of_here.
  - destruct IH as [objs ->].
    + intros Hin. apply Hnull. by apply list_elem_of_further.
    + by exists (k :: objs).
Qed.

(** On a batch of records [importFromKindle] recomputes [totalBooks] and
    [importedFromKindle] and keeps [manuallyAdded], whose count the loop
    does not change. *)
Lemma importFromKindle_statistics host (objs : list obj) w :
  manuallyAdded (metadata (library w)) = countSource "manual_add" (books (library w)) →
  statsConsistent (library (after (importFromKindle host (RObj <$> objs)) w)).
Proof.
  intros Hman.
  pose proof (kindleLoop_invariant host
    (λ bs, countSource "manual_add" bs = countSource "manual_add" (books (library w))))
    as Hinv.
  destruct (Hinv) with (kindleBooks := RObj <$> objs)
    (r := {| total := length (RObj <$> objs); added := 0; updated := 0; skipped := 0 |})
    (w := w) as (Hcount & Hmeta & _).
  - intros bs k i b Hbs Hf. apply list_find_Some in Hf as (Hi & _ & _).
    by rewrite (countSource_insert _ bs i b _ Hi (updatedRecord_source b k)).
  - intros bs k now Hbs Hf.
    rewrite countSource_snoc, importedRecord_source, decide_False by done. lia.
  - reflexivity.
  - unfold after, importFromKindle. unfold mbind at 1, M_bind at 1.
    destruct (kindleLoop_records host objs
                {| total := length (RObj <$> objs); added := 0; updated := 0;
                   skipped := 0 |} w) as (w1 & r1 & Hrun & _).
    rewrite Hrun in Hcount, Hmeta |- *. simpl in Hcount, Hmeta.
    mrun. unfold statsConsistent. simpl. split_and!; [done| |done].
    by rewrite Hmeta, Hman, Hcount.
Qed.

Lemma importSelectedBooks_statistics host (objs : list obj) w :
  statsConsistent (library (after (importSelectedBooks host (RObj <$> objs)) w)).
Proof.
  unfold after, importSelectedBooks. unfold mbind at 1, M_bind at 1, getBooks at 1.
  unfold mbind at 1, M_bind at 1.
  destruct (selectedLoop_records host
              (list_to_set ((λ b, get b "bookId") <$> books (library w)))
              objs {| imported := []; duplicates := []; errors := [] |} w)
    as (w1 & acc1 & -> & _).
  mrun. by unfold statsConsistent.
Qed.

(** C5 (as stated, refuted).  A library loaded from data/library.json
    starts with [manuallyAdded] set to 0 whatever the records; a catalog
    add then recomputes [totalBooks] only, so that afterwards
    [manuallyAdded] is 0 while one record has the source ['manual_add']. *)
Lemma addBookFromGoogleBooks_keeps_stale_counter :
  let loaded :=
    after (initializeFromFile
             (Some {| ldBooks := [ ("M1", RObj (literal [ ("bookId", VStr "M1");
                                                         ("title", VStr "T");
                                                         ("source", VStr "manual_add") ])) ];
                      ldStatsTotalBooks := None;
                      ldExportDate := None |})) initialWorld in
  let w :=
    after (addBookFromGoogleBooks exampleHost "zyTCAlFPjgYC"
             (ResponseOk (Some {| viTitle := VStr "The Google Story";
                                  viAuthors := Some ["David A. Vise"];
                                  viImageLinks := None |}))) loaded in
  length (books (library w)) = 2%nat
  ∧ totalBooks (metadata (library w)) = 2%nat
  ∧ manuallyAdded (metadata (library w)) = 0%nat
  ∧ countSource "manual_add" (books (library w)) = 1%nat.
Proof. vm_compute. done. Qed.

(** C5 (amended).  From a library whose three counters are consistent —
    the empty library in particular — every mutating operation (manual
    add, link-based add, catalog-based add, bulk import in either mode,
    field update, delete in either mode, clear-all) leaves [totalBooks]
    equal to the number of records, [manuallyAdded] equal to the number of
    records with source ['manual_add'] and [importedFromKindle] equal to the
    number of records with source ['kindle_import'], provided a bulk batch
    holds records only and a manual add does not supply the source
    ['kindle_import']. *)
Theorem counters_stay_consistent (host : Host) (op : operation) (w : World) :
  statsConsistent (library w) →
  keepsCounters op →
  statsConsistent (library (perform host op w)).
Proof.
  intros Hw Hop. pose proof Hw as (Htot & Hman & Hkin).
  destruct op; cbn [perform keepsCounters] in *.
  - apply records_of_batch in Hop as [objs ->].
    by apply importFromKindle_statistics.
  - apply records_of_batch in Hop as [objs ->].
    apply importSelectedBooks_statistics.
  - apply addBookManually_library; [done|].
    intros d newBook -> _ Hsrc. unfold statsConsistent. simpl.
    split_and!; [done|done|].
    rewrite countSource_snoc, Hsrc, decide_False by done. lia.
  - apply addBookFromAmazonUrl_library; [done|].
    intros newBook _ Hsrc. unfold statsConsistent. simpl.
    split_and!; [done|done|].
    rewrite countSource_snoc, Hsrc, decide_False by done. lia.
  - apply addBookFromGoogleBooks_library; [done|].
    intros newBook _ Hsrc. unfold statsConsistent. simpl.
    split_and!; [done| |];
      rewrite countSource_snoc, Hsrc, decide_False by done; lia.
  - apply updateBook_library; [done|]. intros i book _ bs'. by unfold statsConsistent.
  - apply deleteBook_library; [done|]. intros i book _ bs'. by unfold statsConsistent.
  - rewrite clearAllBooks_library. by unfold statsConsistent.
Qed.

Lemma counters_stay_consistent_witness :
  statsConsistent (library
    (perform exampleHost
       (AddBookManually (RObj (literal [ ("bookId", VStr "B000ABCDEF");
                                         ("title", VStr "T1");
                                         ("readStatus", VStr "UNKNOWN");
                                         ("source", VStr "manual_add") ])))
       initialWorld)).
Proof.
  apply counters_stay_consistent.
  - vm_compute. done.
  - vm_compute. discriminate.
Defined.

(** ** Two scenarios run on the model *)

(** A manual add into the empty library: one record, [totalBooks = 1],
    [manuallyAdded = 1]. *)
Example scenario_manual_add :
  let w := after (addBookManually exampleHost
                    (RObj (literal [ ("bookId", VStr "B000ABCDEF");
                                     ("title", VStr "T1");
                                     ("readStatus", VStr "UNKNOWN");
                                     ("source", VStr "manual_add") ])))
                 initialWorld in
  bookIds (books (library w)) = [VStr "B000ABCDEF"]
  ∧ totalBooks (metadata (library w)) = 1%nat
  ∧ manuallyAdded (metadata (library w)) = 1%nat.
Proof. vm_compute. done. Qed.

(** A merge-with-update batch against an existing record with an older
    [acquiredTime] and another [readStatus]: the record takes both values
    and the summary counts one update. *)
Example scenario_merge_with_update :
  let w0 := {| library :=
                 {| books := [ literal [ ("bookId", VStr "X1");
                                         ("acquiredTime", VNum 50);
                                         ("readStatus", VStr "UNKNOWN") ] ];
                    metadata := {| lastImportDate := None; totalBooks := 1;
                                   manuallyAdded := 0; importedFromKindle := 0 |} |};
               storage := []; ticks := 0 |} in
  let batch := [ RObj (literal [ ("bookId", VStr "X1"); ("acquiredTime", VNum 100);
                                 ("readStatus", VStr "READ") ]) ] in
  ∃ w r book,
    importFromKindle exampleHost batch w0 = (w, Return r)
    ∧ r = {| total := 1; added := 0; updated := 1; skipped := 0 |}
    ∧ books (library w) = [book]
    ∧ get book "acquiredTime" = VNum 100
    ∧ get book "readStatus" = VStr "READ".
Proof.
  eexists _, _, _. split; [vm_compute; reflexivity|].
  split_and!; vm_compute; reflexivity.
Qed.
